(** * WebInteractSignalRService: connection manager and invocation router

    A shallow embedding of the SignalR service of the client library
    (class [WebInteractSignalRService]) and the properties of its
    reconnection logic, its argument sanitisation and its tool
    invocation path.

    Conventions.
    - JavaScript numbers that the service only counts or multiplies by
      powers of two are integers ([Z]); the one place that draws a
      random fraction uses rationals ([Q]).
    - The service object is a record of its mutable fields together with
      the pending timers, the connection attempts still awaited and the
      sequence of observable actions it has performed.
    - Methods run in a state-and-exception monad in which a [throw]
      keeps the field updates made before it, as in JavaScript.
    - An [await] on the transport splits a method into the part before
      it and the continuation run when the promise settles. *)

From Stdlib Require Import ZArith QArith Qround Lqa String DecimalString Lia.
From stdpp Require Import base option list strings gmap.

Close Scope Q_scope.
Local Open Scope string_scope.
Local Open Scope list_scope.
Local Open Scope Z_scope.

(** ** JavaScript values received over the channel *)

(** Tool arguments arrive as decoded JSON; [undefined] is what an
    omitted argument reads as.  The numeric payload is never inspected
    by the service. *)
#[warnings="-register-all"]
Inductive JsValue : Type :=
| JsUndefined
| JsNull
| JsBoolean (b : bool)
| JsNumber (n : Z)
| JsString (s : string)
| JsArray (items : list JsValue)
| JsObject (props : list (string * JsValue)).

(** The result of the [typeof] operator. *)
Inductive JsType : Type :=
| TyUndefined | TyObject | TyBoolean | TyNumber | TyString.

Definition typeof (v : JsValue) : JsType :=
  match v with
  | JsUndefined => TyUndefined
  | JsNull => TyObject
  | JsBoolean _ => TyBoolean
  | JsNumber _ => TyNumber
  | JsString _ => TyString
  | JsArray _ => TyObject
  | JsObject _ => TyObject
  end.

Definition typeof_string (t : JsType) : string :=
  match t with
  | TyUndefined => "undefined"
  | TyObject => "object"
  | TyBoolean => "boolean"
  | TyNumber => "number"
  | TyString => "string"
  end.

Definition JsType_eqb (a b : JsType) : bool :=
  match a, b with
  | TyUndefined, TyUndefined | TyObject, TyObject | TyBoolean, TyBoolean
  | TyNumber, TyNumber | TyString, TyString => true
  | _, _ => false
  end.

(** [Array.isArray] *)
Definition isArray (v : JsValue) : bool :=
  match v with JsArray _ => true | _ => false end.

(** [params === null || params === undefined] *)
Definition is_nullish (v : JsValue) : bool :=
  match v with JsNull | JsUndefined => true | _ => false end.

(** The empty object literal [{}]. *)
Definition empty_object : JsValue := JsObject [].

(** A parameter with a default value, as in [params: unknown = {}]: the
    default stands in when the argument is [undefined]. *)
Definition or_default (v dflt : JsValue) : JsValue :=
  match v with
  | JsUndefined => dflt
  | _ => v
  end.

(** A thrown value that can be reported: an [Error] with its message,
    or any other value that [String(value)] converts, kept as the string
    the conversion yields.  The transport rejects its promises with such
    values. *)
Inductive Thrown : Type :=
| ErrorObject (message : string)
| NonError (shown : string).

(** [error instanceof Error ? error.message : String(error)] *)
Definition message_of (e : Thrown) : string :=
  match e with
  | ErrorObject m => m
  | NonError s => s
  end.

(** Any value that a [throw] or a rejected promise can carry, as a
    [catch (error)] receives it: a value that can be reported, or a
    value that is not an [Error] and whose conversion [String(value)]
    throws in turn (an object whose [toString] throws); [raises] is what
    the conversion throws. *)
Inductive Raised : Type :=
| Stringable (thrown : Thrown)
| Unstringable (raises : Raised).

Coercion Stringable : Thrown >-> Raised.

(** Decimal rendering of a number inside a template literal. *)
Definition show_Z (n : Z) : string := NilZero.string_of_int (Z.to_int n).

(** ** Data exchanged with the execution controller *)

(** Modelled from the spec: the result envelope [CallToolResult] is
    declared in [types.ts]; the invocation result of the data model is
    [{ success, content?, error? }]. *)
Record CallToolResult : Type := {
  success : bool;
  content : option JsValue;
  error : option string
}.

(** Modelled from the spec: [createErrorResult] of [types.ts] builds the
    failure envelope [{success:false, error:<message>}] from an error. *)
Definition createErrorResult (e : Thrown) : CallToolResult :=
  {| success := false; content := None; error := Some (message_of e) |}.

(** [ToolStartConfig]: the single item of the batch handed to the
    controller. *)
Record ToolStartConfig : Type := {
  toolId : string;
  params : JsValue
}.

(** How the promise returned by [mcpController.start(tools)] settles.  An
    entry of the resolved array that reads as [undefined] is [None]. *)
Inductive ControllerOutcome : Type :=
| Resolves (results : list (option CallToolResult))
| Rejects (e : Raised).

(** The injected capability [WebInteractMCPController]. *)
Definition WebInteractMCPController : Type :=
  list ToolStartConfig → ControllerOutcome.

(** Modelled from the spec: a step and a tool definition as the catalog
    ([ToolRegistry], [tool-registry.ts]) stores them, keyed by tool id. *)
Record StepDefinition : Type := {
  targetElement : string;
  action_type : string
}.

Record ToolDefinition : Type := {
  title : option string;
  description : option string;
  mode : option string;
  steps : list StepDefinition
}.

(** ** Configuration *)

Inductive LogLevel : Type :=
| TRACE | DEBUG | INFO | WARN | ERROR | FATAL | OFF.

Record TransportOptions : Type := {
  hubPath : string;
  maxRetryAttempts : Z;
  baseRetryDelayMs : Z;
  enableLogging : bool;
  logLevel : LogLevel;
  transportTypes : Z
}.

(** ** The transport object *)

(** [signalR.HubConnectionState] *)
Inductive HubConnectionState : Type :=
| Disconnected | Connecting | Connected | Disconnecting | Reconnecting.

Definition HubConnectionState_eqb (a b : HubConnectionState) : bool :=
  match a, b with
  | Disconnected, Disconnected | Connecting, Connecting
  | Connected, Connected | Disconnecting, Disconnecting
  | Reconnecting, Reconnecting => true
  | _, _ => false
  end.

(** What the service reads from its [signalR.HubConnection]. *)
Record HubConnection : Type := {
  state : HubConnectionState;
  connectionId : option string
}.

(** ** Observable actions *)

(** The four methods of the injected logger. *)
Inductive LogMethod : Type := LogLog | LogError | LogWarn | LogInfo.

(** Who awaits a [connection.start()] promise: a caller of the public
    [start()], or the retry-timer callback of [scheduleReconnect]. *)
Inductive Awaiter : Type := ByCaller | ByTimer.

(** Who waits on a [connection.stop()] promise: [stop()], which awaits
    it, or [dispose()], which only attaches a [catch]. *)
Inductive StopAwaiter : Type := FromStop | FromDispose.

(** A logging call is recorded with its method and its message (the
    first argument); the further arguments are diagnostic values. *)
Inductive Effect : Type :=
| Logged (m : LogMethod) (text : string)
| HubStart
| HubStop
| SetTimeout (delay : Z)
| ControllerStart (tools : list ToolStartConfig)
| Replied (result : CallToolResult)
| Rejected (e : Raised).

(** ** The service object *)

Record World : Type := {
  connection : option HubConnection;
  reconnectAttempts : Z;
  isManuallyDisconnected : bool;
  (** callbacks handed to [setTimeout] and not yet run, with their delay *)
  timers : list Z;
  (** [connection.start()] promises not yet settled *)
  starting : list Awaiter;
  (** [connection.stop()] promises not yet settled *)
  stopping : list StopAwaiter;
  (** everything done so far, newest first *)
  trace : list Effect
}.

(** Field updates. *)
Definition with_connection (c : option HubConnection) (w : World) : World :=
  {| connection := c; reconnectAttempts := reconnectAttempts w;
     isManuallyDisconnected := isManuallyDisconnected w; timers := timers w;
     starting := starting w; stopping := stopping w; trace := trace w |}.

Definition with_reconnectAttempts (n : Z) (w : World) : World :=
  {| connection := connection w; reconnectAttempts := n;
     isManuallyDisconnected := isManuallyDisconnected w; timers := timers w;
     starting := starting w; stopping := stopping w; trace := trace w |}.

Definition with_isManuallyDisconnected (b : bool) (w : World) : World :=
  {| connection := connection w; reconnectAttempts := reconnectAttempts w;
     isManuallyDisconnected := b; timers := timers w;
     starting := starting w; stopping := stopping w; trace := trace w |}.

Definition with_timers (ts : list Z) (w : World) : World :=
  {| connection := connection w; reconnectAttempts := reconnectAttempts w;
     isManuallyDisconnected := isManuallyDisconnected w; timers := ts;
     starting := starting w; stopping := stopping w; trace := trace w |}.

Definition with_starting (l : list Awaiter) (w : World) : World :=
  {| connection := connection w; reconnectAttempts := reconnectAttempts w;
     isManuallyDisconnected := isManuallyDisconnected w; timers := timers w;
     starting := l; stopping := stopping w; trace := trace w |}.

Definition with_stopping (l : list StopAwaiter) (w : World) : World :=
  {| connection := connection w; reconnectAttempts := reconnectAttempts w;
     isManuallyDisconnected := isManuallyDisconnected w; timers := timers w;
     starting := starting w; stopping := l; trace := trace w |}.

Definition with_trace (t : list Effect) (w : World) : World :=
  {| connection := connection w; reconnectAttempts := reconnectAttempts w;
     isManuallyDisconnected := isManuallyDisconnected w; timers := timers w;
     starting := starting w; stopping := stopping w; trace := t |}.

(** ** The monad of method bodies *)

Inductive Outcome (A : Type) : Type :=
| Returned (a : A)
| Threw (e : Raised).
Arguments Returned {A} a.
Arguments Threw {A} e.

Definition Js (A : Type) : Type := World → Outcome A * World.

#[export] Instance Js_ret : MRet Js := λ A a w, (Returned a, w).

#[export] Instance Js_bind : MBind Js := λ A B f m w,
  match m w with
  | (Returned a, w') => f a w'
  | (Threw e, w') => (Threw e, w')
  end.

#[export] Instance Js_throw : MThrow Raised Js := λ A e w, (Threw e, w).

(** [throw new Error(...)], and the rethrowing of a value of the
    transport. *)
#[export] Instance Js_throw_error : MThrow Thrown Js :=
  λ A e w, (Threw (Stringable e), w).

(** [try { body } catch (e) { handler(e) }] *)
Definition try_catch {A} (body : Js A) (handler : Raised → Js A) : Js A :=
  λ w, match body w with
       | (Returned a, w') => (Returned a, w')
       | (Threw e, w') => handler e w'
       end.

Definition reads {A} (field : World → A) : Js A := λ w, (Returned (field w), w).

Definition update (f : World → World) : Js unit := λ w, (Returned (), f w).

Definition emit (e : Effect) : Js unit :=
  update (λ w, with_trace (e :: trace w) w).

(** A call of one of the logger's methods.  The silent logger and the
    console differ only in what the sink does with the call. *)
Definition logger (m : LogMethod) (text : string) : Js unit :=
  emit (Logged m text).

(** The actions performed so far, in the order they happened. *)
Definition history (w : World) : list Effect := rev (trace w).

(** [error instanceof Error ? error : new Error(String(error))]: an
    [Error] is kept, another value is converted to a string, and the
    conversion of a value whose [toString] throws throws. *)
Definition to_Error (e : Raised) : Js Thrown :=
  match e with
  | Stringable thrown => mret (ErrorObject (message_of thrown))
  | Unstringable raises => mthrow raises
  end.

(** ** Bitwise operators on numbers *)

(** [ToInt32]: the operands of [&] and [|] are first wrapped to signed
    32-bit integers. *)
Definition toInt32 (x : Z) : Z := (x + 2 ^ 31) mod 2 ^ 32 - 2 ^ 31.

Definition js_and (a b : Z) : Z := Z.land (toInt32 a) (toInt32 b).
Definition js_or (a b : Z) : Z := Z.lor (toInt32 a) (toInt32 b).

(** A number used as a condition is true unless it is zero. *)
Definition truthy (x : Z) : bool := negb (x =? 0).

(** [signalR.HttpTransportType], from the transport library. *)
Module HttpTransportType.
Definition None : Z := 0.
Definition WebSockets : Z := 1.
Definition ServerSentEvents : Z := 2.
Definition LongPolling : Z := 4.
End HttpTransportType.

(** The values of the [TransportType] enumeration ([types.ts]). *)
Record TransportTypeEnum : Type := {
  WebSockets : Z;
  ServerSentEvents : Z;
  LongPolling : Z
}.

(** [mapTransportType] *)
Definition mapTransportType (TransportType : TransportTypeEnum)
    (transportType : Z) : Z :=
  let result := HttpTransportType.None in
  let result :=
    if truthy (js_and transportType (WebSockets TransportType))
    then js_or result HttpTransportType.WebSockets else result in
  let result :=
    if truthy (js_and transportType (ServerSentEvents TransportType))
    then js_or result HttpTransportType.ServerSentEvents else result in
  let result :=
    if truthy (js_and transportType (LongPolling TransportType))
    then js_or result HttpTransportType.LongPolling else result in
  result.

(** ** The retry policy handed to the transport *)

(** [nextRetryDelayInMilliseconds] of [withAutomaticReconnect], with the
    value drawn by [Math.random()] as an argument.  The arithmetic is
    that of double-precision numbers: [double] rounds a real result to
    the nearest one.  The capped part needs no rounding for a retry
    count that is not negative: the product of an integer and a power of
    two is exact, or overflows to [Infinity], of which [Math.min] makes
    the cap as [Z.min] does of the exact product. *)
Definition nextRetryDelayInMilliseconds (double : Q → Q)
    (config : TransportOptions) (previousRetryCount : Z) (random : Q) : Q :=
  let delay :=
    Z.min (baseRetryDelayMs config * 2 ^ previousRetryCount) 30000 in
  double (inject_Z delay + double (random * 1000))%Q.

(** ** Methods of the service *)

Section Service.

(** The constructor's arguments, after the defaults are merged in. *)
Context (config : TransportOptions)
        (mcpController : option WebInteractMCPController)
        (toolRegistry : gmap string ToolDefinition).

(** *** Argument sanitisation *)

(** [sanitizeParameters] *)
Definition sanitizeParameters (params : JsValue) : Js JsValue :=
  if is_nullish params then mret empty_object
  else if JsType_eqb (typeof params) TyObject && negb (isArray params)
  then mret params
  else
    logger LogWarn "Invalid parameters type, using empty object:";;
    mret empty_object.

(** *** Tool invocation *)

(** [results[0]], and whether it is there: a missing index and an
    [undefined] entry both fail the test [!result]. *)
Definition first_result (results : list (option CallToolResult))
    : option CallToolResult :=
  mjoin (results !! 0%nat).

(** [await this.mcpController.start([toolConfig])]: the call is
    recorded and the promise settles as the controller decides. *)
Definition controller_start (controller : WebInteractMCPController)
    (tools : list ToolStartConfig) : Js (list (option CallToolResult)) :=
  emit (ControllerStart tools);;
  match controller tools with
  | Resolves results => mret results
  | Rejects e => mthrow e
  end.

(** [invokeTool] *)
Definition invokeTool (toolName : string) (params : JsValue)
    : Js CallToolResult :=
  match mcpController with
  | None =>
      mthrow (ErrorObject
                "MCP Controller not set. Call setMCPController() first.")
  | Some controller =>
      sanitizedParams ← sanitizeParameters (or_default params empty_object);
      let toolConfig :=
        {| toolId := toolName; params := sanitizedParams |} in
      try_catch
        (results ← controller_start controller [toolConfig];
         match first_result results with
         | None =>
             mret (createErrorResult
                     (ErrorObject "No result returned from tool execution"))
         | Some result => mret result
         end)
        (λ e,
           logger LogError ("Tool execution failed for " +:+ toolName +:+ ":");;
           converted ← to_Error e;
           mret (createErrorResult converted))
  end.

(** The handler registered for ['InvokeTool']. *)
Definition on_InvokeTool (toolName : string) (toolArguments : JsValue)
    : Js CallToolResult :=
  logger LogLog ("Received tool invocation request: " +:+ toolName);;
  try_catch
    (invokeTool toolName toolArguments)
    (λ e,
       logger LogError "Error executing tool:";;
       converted ← to_Error e;
       mret (createErrorResult converted)).

(** *** The transport's side of the calls

    The service depends on the transport only through this contract:
    [connection.start()] moves a disconnected connection to
    [Connecting] and returns a promise; when the promise is fulfilled
    the connection is [Connected], when it is rejected a connecting
    connection is back to [Disconnected]; [connection.stop()] starts
    the tear-down; the [close], [reconnecting] and [reconnected]
    notifications report the states [Disconnected], [Reconnecting] and
    [Connected]. *)

Definition hub_set_state (s : HubConnectionState) (id : option string)
    (w : World) : World :=
  match connection w with
  | Some _ => with_connection (Some {| state := s; connectionId := id |}) w
  | None => w
  end.

Definition hub_state_is (s : HubConnectionState) (w : World) : bool :=
  match connection w with
  | Some hub => HubConnectionState_eqb (state hub) s
  | None => false
  end.

Definition current_id (w : World) : option string :=
  hub ← connection w; connectionId hub.

(** [this.connection.start()], up to the promise it returns. *)
Definition hub_start : Js unit :=
  emit HubStart;;
  update (λ w, if hub_state_is Disconnected w
               then hub_set_state Connecting None w else w).

(** [this.connection.stop()], up to the promise it returns. *)
Definition hub_stop : Js unit :=
  emit HubStop;;
  update (λ w, if hub_state_is Disconnected w
               then w else hub_set_state Disconnecting (current_id w) w).

(** How a [connection.start()] promise settles. *)
Inductive StartSettled : Type :=
| StartFulfilled (id : string)
| StartRejected (e : Thrown).

Definition hub_start_settled (r : StartSettled) (w : World) : World :=
  match r with
  | StartFulfilled id => hub_set_state Connected (Some id) w
  | StartRejected _ =>
      if hub_state_is Connecting w then hub_set_state Disconnected None w
      else w
  end.

(** [setTimeout(callback, delay)] with the callback of
    [scheduleReconnect]. *)
Definition setTimeout (delay : Z) : Js unit :=
  emit (SetTimeout delay);;
  update (λ w, with_timers (timers w ++ [delay]) w).

(** *** Connection lifecycle *)

(** Where an [async] method stands when control returns to the event
    loop: finished, or suspended at its [await]. *)
Inductive Progress : Type := Finished | Suspended.

(** [start], up to [await this.connection.start()]. *)
Definition start_begin : Js Progress :=
  c ← reads connection;
  match c with
  | None => mthrow (ErrorObject "SignalR connection not initialized")
  | Some hub =>
      if HubConnectionState_eqb (state hub) Connected then
        logger LogLog "SignalR connection already established";;
        mret Finished
      else if HubConnectionState_eqb (state hub) Connecting then
        logger LogLog "SignalR connection attempt already in progress";;
        mret Finished
      else
        update (with_isManuallyDisconnected false);;
        hub_start;;
        mret Suspended
  end.

(** [start], from the point where the awaited promise has settled. *)
Definition start_resume (r : StartSettled) : Js unit :=
  match r with
  | StartFulfilled _ =>
      update (with_reconnectAttempts 0);;
      logger LogLog "SignalR connection started successfully"
  | StartRejected e =>
      logger LogError "Error starting SignalR connection:";;
      mthrow (ErrorObject
                ("Failed to start SignalR connection: " +:+ message_of e))
  end.

(** [stop], up to [await this.connection.stop()]. *)
Definition stop_begin : Js Progress :=
  c ← reads connection;
  match c with
  | Some _ =>
      update (with_isManuallyDisconnected true);;
      hub_stop;;
      mret Suspended
  | None => mret Finished
  end.

(** [stop], from the point where the awaited promise has settled. *)
Definition stop_resume (r : option Thrown) : Js unit :=
  match r with
  | None => logger LogLog "SignalR connection stopped"
  | Some e => mthrow e
  end.

(** [dispose]; whether a [connection.stop()] promise is now pending. *)
Definition dispose : Js Progress :=
  update (with_isManuallyDisconnected true);;
  c ← reads connection;
  match c with
  | Some _ =>
      hub_stop;;
      update (with_connection None);;
      mret Suspended
  | None => mret Finished
  end.

(** The [catch] attached to the promise in [dispose]. *)
Definition dispose_catch (r : option Thrown) : Js unit :=
  match r with
  | None => mret ()
  | Some _ => logger LogError "Error stopping connection during disposal:"
  end.

(** [scheduleReconnect].  The counter is never negative, so the exponent
    of [Math.pow(2, reconnectAttempts - 1)] is a natural number once the
    counter has been incremented, and the power is the integer power. *)
Definition scheduleReconnect : Js unit :=
  manual ← reads isManuallyDisconnected;
  attempts ← reads reconnectAttempts;
  if manual || (attempts >=? maxRetryAttempts config) then
    logger LogError
      ("Max reconnection attempts (" +:+ show_Z (maxRetryAttempts config)
         +:+ ") reached")
  else
    update (λ w, with_reconnectAttempts (reconnectAttempts w + 1) w);;
    attempts ← reads reconnectAttempts;
    let delay := baseRetryDelayMs config * 2 ^ (attempts - 1) in
    logger LogLog
      ("Scheduling reconnection attempt " +:+ show_Z attempts +:+ " in "
         +:+ show_Z delay +:+ "ms");;
    setTimeout delay.

(** The [catch] block of the timer callback. *)
Definition retry_failed (e : Raised) : Js unit :=
  attempts ← reads reconnectAttempts;
  logger LogError
    ("Reconnection attempt " +:+ show_Z attempts +:+ " failed:");;
  scheduleReconnect.

(** The timer callback, up to the [await] inside [this.start()]. *)
Definition timer_begin : Js Progress :=
  manual ← reads isManuallyDisconnected;
  if negb manual then
    try_catch start_begin (λ e, retry_failed e;; mret Finished)
  else mret Finished.

(** The timer callback, once the connection attempt has settled. *)
Definition timer_resume (r : StartSettled) : Js unit :=
  try_catch (start_resume r) retry_failed.

(** The handler registered with [onclose]. *)
Definition on_close (err : option Thrown) : Js unit :=
  match err with
  | Some _ => logger LogError "SignalR connection closed with error:"
  | None => logger LogLog "SignalR connection closed"
  end;;
  manual ← reads isManuallyDisconnected;
  if negb manual then scheduleReconnect else mret ().

(** The handler registered with [onreconnecting]. *)
Definition on_reconnecting (err : option Thrown) : Js unit :=
  logger LogWarn "SignalR reconnecting...".

(** The handler registered with [onreconnected]. *)
Definition on_reconnected (connectionId : option string) : Js unit :=
  logger LogLog
    ("SignalR reconnected with ID: " +:+ default "undefined" connectionId);;
  update (with_reconnectAttempts 0).

(** *** The event loop

    One event is one turn of the JavaScript event loop: a call of a
    public method, a promise of the transport settling, a notification
    of the transport, a timer running out, or a request of the peer.
    Nothing constrains the order in which the transport delivers them.
    A request of the peer is taken together with the settling of the
    controller's promise: the event stands for an invocation whose
    controller has answered, and no other event is placed between the
    call of the controller and its answer. *)

Inductive Event : Type :=
| CallStart
| CallStop
| CallDispose
| HubStartSettles (i : nat) (r : StartSettled)
| HubStopSettles (i : nat) (r : option Thrown)
| HubClosed (err : option Thrown)
| HubReconnecting (err : option Thrown)
| HubReconnected (id : option string)
| TimerFires (i : nat)
| PeerInvokeTool (toolName : string) (toolArguments : JsValue).

(** Runs a body to its end; an exception that leaves it rejects the
    promise of whoever called. *)
Definition finish {A} (body : Js A) (w : World) : World :=
  match body w with
  | (Returned _, w') => w'
  | (Threw e, w') => with_trace (Rejected e :: trace w') w'
  end.

(** Runs a body up to its [await]; [suspend] records the continuation. *)
Definition run_until_await (body : Js Progress) (suspend : World → World)
    (w : World) : World :=
  match body w with
  | (Returned Finished, w') => w'
  | (Returned Suspended, w') => suspend w'
  | (Threw e, w') => with_trace (Rejected e :: trace w') w'
  end.

Definition awaiting_start (who : Awaiter) (w : World) : World :=
  with_starting (starting w ++ [who]) w.

Definition awaiting_stop (who : StopAwaiter) (w : World) : World :=
  with_stopping (stopping w ++ [who]) w.

Definition step (ev : Event) (w : World) : World :=
  match ev with
  | CallStart => run_until_await start_begin (awaiting_start ByCaller) w
  | CallStop => run_until_await stop_begin (awaiting_stop FromStop) w
  | CallDispose => run_until_await dispose (awaiting_stop FromDispose) w
  | HubStartSettles i r =>
      match starting w !! i with
      | None => w
      | Some who =>
          let w1 := hub_start_settled r (with_starting (delete i (starting w)) w) in
          match who with
          | ByCaller => finish (start_resume r) w1
          | ByTimer => finish (timer_resume r) w1
          end
      end
  | HubStopSettles i r =>
      match stopping w !! i with
      | None => w
      | Some who =>
          let w1 := with_stopping (delete i (stopping w)) w in
          match who with
          | FromStop =>
              finish (stop_resume r)
                     (if r is None then hub_set_state Disconnected None w1
                      else w1)
          | FromDispose => finish (dispose_catch r) w1
          end
      end
  | HubClosed err => finish (on_close err) (hub_set_state Disconnected None w)
  | HubReconnecting err =>
      finish (on_reconnecting err)
             (hub_set_state Reconnecting (current_id w) w)
  | HubReconnected id => finish (on_reconnected id) (hub_set_state Connected id w)
  | TimerFires i =>
      match timers w !! i with
      | None => w
      | Some _ =>
          run_until_await timer_begin (awaiting_start ByTimer)
                          (with_timers (delete i (timers w)) w)
      end
  | PeerInvokeTool toolName toolArguments =>
      match on_InvokeTool toolName toolArguments w with
      | (Returned result, w') => with_trace (Replied result :: trace w') w'
      | (Threw e, w') => with_trace (Rejected e :: trace w') w'
      end
  end.

(** The events of a list, first to last. *)
Definition run (evs : list Event) (w : World) : World :=
  foldl (λ w ev, step ev w) w evs.

End Service.

(** The service as the constructor leaves it: [setupConnection] has
    built the connection, nothing else has happened. *)
Definition initial : World :=
  {| connection := Some {| state := Disconnected; connectionId := None |};
     reconnectAttempts := 0;
     isManuallyDisconnected := false;
     timers := [];
     starting := [];
     stopping := [];
     trace := [] |}.

(** The option values the constructor uses where none is given. *)
Definition defaultOptions (TransportType : TransportTypeEnum)
    : TransportOptions :=
  {| hubPath := "/mcptools";
     maxRetryAttempts := 10;
     baseRetryDelayMs := 1000;
     enableLogging := false;
     logLevel := INFO;
     transportTypes :=
       js_or (js_or (WebSockets TransportType) (ServerSentEvents TransportType))
             (LongPolling TransportType) |}.

(** An assignment of the transport flags, one bit each, and the
    options a service built without overrides runs with. *)
Definition one_bit_each : TransportTypeEnum :=
  {| WebSockets := 1; ServerSentEvents := 2; LongPolling := 4 |}.

Definition standard : TransportOptions := defaultOptions one_bit_each.

(** The same options with room for a single retry. *)
Definition single_retry : TransportOptions :=
  {| hubPath := hubPath standard;
     maxRetryAttempts := 1;
     baseRetryDelayMs := baseRetryDelayMs standard;
     enableLogging := enableLogging standard;
     logLevel := logLevel standard;
     transportTypes := transportTypes standard |}.

(** ** Vocabulary of the statements *)

(** The world [w] after the actions [log] (newest first) and nothing
    else: every field but the trace is as in [w]. *)
Definition said (log : list Effect) (w : World) : World :=
  with_trace (log ++ trace w) w.

(** A trace grown from [old] by actions that all satisfy [P]. *)
Inductive grows (P : Effect → Prop) (old : list Effect)
    : list Effect → Prop :=
| grows_same : grows P old old
| grows_more e t : P e → grows P old t → grows P old (e :: t).

(** The actions that make up a reconnect attempt: arming a retry timer
    and asking the transport to connect. *)
Definition reconnect_action (e : Effect) : bool :=
  match e with
  | HubStart | SetTimeout _ => true
  | _ => false
  end.

Definition quiet (e : Effect) : Prop := reconnect_action e = false.

(** What the invocation path may do: log, and call the controller. *)
Definition router_effect (e : Effect) : Prop :=
  match e with
  | Logged _ _ | ControllerStart _ => True
  | _ => False
  end.

(** The batches handed to the controller in a trace. *)
Definition controller_calls (log : list Effect)
    : list (list ToolStartConfig) :=
  omap (λ e, match e with
             | ControllerStart tools => Some tools
             | _ => None
             end) log.

(** A mapping is an object that is not an array. *)
Definition is_mapping (v : JsValue) : bool :=
  match v with
  | JsObject _ => true
  | _ => false
  end.

(** Sanitisation as the data model words it: a mapping is kept, any
    other value becomes the empty mapping. *)
Definition sanitized (params : JsValue) : JsValue :=
  if is_mapping params then params else empty_object.

(** The single-item batch of an invocation. *)
Definition batch_for (toolName : string) (params : JsValue)
    : list ToolStartConfig :=
  [{| toolId := toolName; params := sanitized params |}].

(** The failure envelope with a given message:
    [createErrorResult(new Error(message))]. *)
Definition failure (message : string) : CallToolResult :=
  createErrorResult (ErrorObject message).

Definition no_result : CallToolResult :=
  failure "No result returned from tool execution".

Definition controller_not_set : CallToolResult :=
  failure "MCP Controller not set. Call setMCPController() first.".

(** What becomes of a value caught by one of the two [catch] blocks of
    the invocation path: the failure envelope with its message, unless
    its conversion to a string throws, which leaves the block. *)
Definition reported (e : Raised) : Outcome CallToolResult :=
  match e with
  | Stringable thrown => Returned (failure (message_of thrown))
  | Unstringable raises => Threw raises
  end.

(** How [invokeTool] ends once the controller has been asked. *)
Definition delegated (controller : WebInteractMCPController)
    (toolName : string) (params : JsValue) : Outcome CallToolResult :=
  match controller (batch_for toolName params) with
  | Resolves results => Returned (default no_result (first_result results))
  | Rejects e => reported e
  end.

(** How the ['InvokeTool'] handler ends. *)
Definition handled (ctl : option WebInteractMCPController)
    (toolName : string) (toolArguments : JsValue) : Outcome CallToolResult :=
  match ctl with
  | None => Returned controller_not_set
  | Some controller =>
      match delegated controller toolName toolArguments with
      | Returned result => Returned result
      | Threw e => reported e
      end
  end.

(** What the event loop records when a handler ends. *)
Definition settled (outcome : Outcome CallToolResult) : Effect :=
  match outcome with
  | Returned result => Replied result
  | Threw e => Rejected e
  end.

(** The error [start()] throws when the connection attempt fails. *)
Definition connection_error (e : Thrown) : Thrown :=
  ErrorObject ("Failed to start SignalR connection: " +:+ message_of e).

(** The two log lines of [scheduleReconnect]. *)
Definition exhausted_message (config : TransportOptions) : string :=
  "Max reconnection attempts (" +:+ show_Z (maxRetryAttempts config)
    +:+ ") reached".

Definition scheduling_message (attempt delay : Z) : string :=
  "Scheduling reconnection attempt " +:+ show_Z attempt +:+ " in "
    +:+ show_Z delay +:+ "ms".

(** The delay [scheduleReconnect] passes to [setTimeout] for the retry
    numbered [attempt]. *)
Definition retry_delay (config : TransportOptions) (attempt : Z) : Z :=
  baseRetryDelayMs config * 2 ^ (attempt - 1).

(** The world after [scheduleReconnect] has armed one more retry. *)
Definition retry_scheduled (config : TransportOptions) (w : World) : World :=
  let attempt := reconnectAttempts w + 1 in
  let delay := retry_delay config attempt in
  said [SetTimeout delay; Logged LogLog (scheduling_message attempt delay)]
       (with_timers (timers w ++ [delay]) (with_reconnectAttempts attempt w)).

(** The delay the specification gives for the retry numbered [attempt]:
    capped at 30 seconds, plus a jitter below one second. *)
Definition within_capped_delay (config : TransportOptions) (attempt : Z)
    (delay : Z) : Prop :=
  let capped := Z.min (baseRetryDelayMs config * 2 ^ (attempt - 1)) 30000 in
  capped ≤ delay < capped + 1000.

(** The events that give the retry counter a fresh start: a call of
    [start()], and the transport reporting that it has reconnected. *)
Definition resumes_retries (ev : Event) : bool :=
  match ev with
  | CallStart | HubReconnected _ => true
  | _ => false
  end.

(** Invariants of every world the event loop can reach. *)
Definition disposed_implies_manual (w : World) : Prop :=
  connection w = None → isManuallyDisconnected w = true.

Definition counter_in_budget (config : TransportOptions) (w : World) : Prop :=
  0 ≤ reconnectAttempts w ≤ Z.max 0 (maxRetryAttempts config).

(** The value a flag contributes to a bit mask. *)
Definition flag_value (b : bool) (v : Z) : Z := if b then v else 0.

(** Modelled from the spec: the execution controller behind the
    interface [WebInteractMCPController], whose class is not part of the
    sources at hand.  Each tool of the batch is looked up in the
    catalog; an id that is absent yields the failure envelope
    [{success:false, error:"tool not found"}] without the execution
    engine being touched; otherwise the engine runs the definition with
    the arguments and its result is taken. *)
Definition catalog_controller (catalog : gmap string ToolDefinition)
    (engine : ToolDefinition → JsValue → CallToolResult)
    : WebInteractMCPController :=
  λ tools,
    Resolves
      ((λ tool,
          Some (match catalog !! toolId tool with
                | None =>
                    {| success := false; content := None;
                       error := Some "tool not found" |}
                | Some definition => engine definition (params tool)
                end)) <$> tools).

(** An engine whose every run succeeds with no payload. *)
Definition succeeding_engine (definition : ToolDefinition)
    (arguments : JsValue) : CallToolResult :=
  {| success := true; content := None; error := None |}.

(** A controller that answers nothing. *)
Definition answers_nothing : WebInteractMCPController := λ _, Resolves [].

(** An object whose [toString] throws a second object, whose own
    [toString] throws [last]; and a controller that rejects with the
    first. *)
Definition throws_on_conversion (last : Thrown) : Raised :=
  Unstringable (Unstringable (Stringable last)).

Definition rejects_unreportably (last : Thrown) : WebInteractMCPController :=
  λ _, Rejects (throws_on_conversion last).

(** The rounding of double-precision arithmetic, as far as the retry
    policy depends on it: it keeps the order of the results, and an
    integer of magnitude up to [2^53] is a double. *)
Definition rounds_like_double (double : Q → Q) : Prop :=
  (∀ x y, (x <= y)%Q → (double x <= double y)%Q)
  ∧ (∀ n : Z, - 2 ^ 53 ≤ n ≤ 2 ^ 53 → (double (inject_Z n) == inject_Z n)%Q).

(** Rounding to the nearest multiple of [2^-38], which is the spacing
    of the doubles between 16384 and 32768, where the delays at the cap
    lie. *)
Definition to_grid (x : Q) : Q :=
  Qmake (Qfloor (x * inject_Z (2 ^ 38) + (1 # 2))%Q) (2 ^ 38).

(** The largest double below 1, the largest value that [Math.random()]
    can draw. *)
Definition largest_draw : Q := Qmake (2 ^ 53 - 1) (2 ^ 53).

(** An action that is a call of the logger. *)
Definition only_logged (e : Effect) : Prop :=
  match e with
  | Logged _ _ => True
  | _ => False
  end.

(** ** Further members of the service *)

(** [signalR.LogLevel], from the transport library. *)
Module SignalRLogLevel.
Inductive t : Type :=
| Trace | Debug | Information | Warning | Error | Critical | None.
End SignalRLogLevel.

(** [mapLogLevel].  [None] stands for a value that is none of the
    members of the enumeration, which the [default] branch receives. *)
Definition mapLogLevel (logLevel : option LogLevel) : SignalRLogLevel.t :=
  match logLevel with
  | Some TRACE => SignalRLogLevel.Trace
  | Some DEBUG => SignalRLogLevel.Debug
  | Some INFO => SignalRLogLevel.Information
  | Some WARN => SignalRLogLevel.Warning
  | Some ERROR | Some FATAL => SignalRLogLevel.Error
  | Some OFF => SignalRLogLevel.None
  | None => SignalRLogLevel.Information
  end.

(** [getConnectionId]: [this.connection?.connectionId || null]; the
    empty string is falsy and reads as [null] too. *)
Definition getConnectionId (w : World) : option string :=
  match connection w with
  | Some hub =>
      match connectionId hub with
      | Some id => if String.eqb id "" then None else Some id
      | None => None
      end
  | None => None
  end.

(** The getter [isConnected]:
    [this.connection?.state === HubConnectionState.Connected]. *)
Definition isConnected (w : World) : bool :=
  match connection w with
  | Some hub => HubConnectionState_eqb (state hub) Connected
  | None => false
  end.

(** The getter [connectionState]: [this.connection?.state || null]; the
    members of the enumeration are non-empty strings, hence truthy. *)
Definition connectionState (w : World) : option HubConnectionState :=
  match connection w with
  | Some hub => Some (state hub)
  | None => None
  end.

(** How the promise of [connection.invoke('Ping')] settles. *)
Inductive InvokeSettled : Type :=
| InvokeFulfilled (response : string)
| InvokeRejected (e : Thrown).

(** [ping], up to [await this.connection.invoke('Ping')]: reaching the
    [await] means that the invocation has been sent. *)
Definition ping_begin : Js Progress :=
  c ← reads connection;
  match c with
  | None => mthrow (ErrorObject "SignalR connection not available")
  | Some hub =>
      if negb (HubConnectionState_eqb (state hub) Connected)
      then mthrow (ErrorObject "SignalR connection not available")
      else mret Suspended
  end.

(** [ping], from the point where the awaited promise has settled. *)
Definition ping_resume (r : InvokeSettled) : Js string :=
  match r with
  | InvokeFulfilled response => mret response
  | InvokeRejected e =>
      logger LogError "Error sending ping:";;
      mthrow e
  end.

Section Discovery.

(** What the registry and the JSON parser answer: the string
    [toolRegistry.getToolsAsJson()] returns, and how
    [JSON.parse(toolsJson).length] reads inside the template literal;
    either call may throw. *)
Context (getToolsAsJson : Outcome string)
        (parsed_length : string → Outcome string).

Definition call {A} (o : Outcome A) : Js A := λ w, (o, w).

(** The handler registered for ['GetTools']. *)
Definition on_GetTools : Js string :=
  logger LogLog "Received tools discovery request from server";;
  try_catch
    (toolsJson ← call getToolsAsJson;
     count ← call (parsed_length toolsJson);
     logger LogLog ("Returning " +:+ count +:+ " tools to server");;
     mret toolsJson)
    (λ e,
       logger LogError "Error getting tools for discovery:";;
       mret "[]").

End Discovery.

(** ** Vocabulary of the further statements *)

(** The number of retry timers armed in a trace. *)
Fixpoint timers_armed (log : list Effect) : Z :=
  match log with
  | [] => 0
  | SetTimeout _ :: rest => 1 + timers_armed rest
  | _ :: rest => timers_armed rest
  end.

(** A retry timer armed for one of the attempts [1 .. maxRetryAttempts],
    with the delay of that attempt. *)
Definition armed_within_budget (config : TransportOptions) (e : Effect)
    : Prop :=
  match e with
  | SetTimeout delay =>
      ∃ attempt, 1 ≤ attempt ≤ maxRetryAttempts config
                 ∧ delay = baseRetryDelayMs config * 2 ^ (attempt - 1)
  | _ => True
  end.

(** An action that is not the arming of a timer. *)
Definition arms_no_timer (e : Effect) : Prop :=
  match e with
  | SetTimeout _ => False
  | _ => True
  end.

(** An action that is not a rejection handed to a caller. *)
Definition no_rejection (e : Effect) : Prop :=
  match e with
  | Rejected _ => False
  | _ => True
  end.

(** The events by which a connection is established: a connection
    attempt that succeeds, and the transport reporting a reconnect. *)
Definition connects (ev : Event) : bool :=
  match ev with
  | HubStartSettles _ (StartFulfilled _) | HubReconnected _ => true
  | _ => false
  end.

(** The events of the connection that no caller awaits: notifications
    of the transport, timers, and the settling of promises that a timer
    callback or [dispose] waits on. *)
Definition background (ev : Event) (w : World) : bool :=
  match ev with
  | CallStart | CallStop | CallDispose => false
  | PeerInvokeTool _ _ => false
  | HubStartSettles i _ =>
      match starting w !! i with
      | Some ByCaller => false
      | _ => true
      end
  | HubStopSettles i _ =>
      match stopping w !! i with
      | Some FromStop => false
      | _ => true
      end
  | _ => true
  end.

(** The batches that a list of events asks the controller for, in the
    order of the requests. *)
Definition requested_batches (ctl : option WebInteractMCPController)
    (evs : list Event) : list (list ToolStartConfig) :=
  omap (λ ev, match ev, ctl with
              | PeerInvokeTool toolName toolArguments, Some _ =>
                  Some (batch_for toolName toolArguments)
              | _, _ => None
              end) evs.

(** Options that leave no room for a retry. *)
Definition no_retry : TransportOptions :=
  {| hubPath := hubPath standard;
     maxRetryAttempts := 0;
     baseRetryDelayMs := baseRetryDelayMs standard;
     enableLogging := enableLogging standard;
     logLevel := logLevel standard;
     transportTypes := transportTypes standard |}.

(** * Properties *)

(** ** Proof automation *)

Create HintDb service discriminated.

#[local] Hint Unfold step run_until_await finish start_begin stop_begin
  dispose hub_start hub_stop timer_resume timer_begin start_resume
  stop_resume dispose_catch on_close on_reconnecting on_reconnected
  retry_failed scheduleReconnect hub_start_settled hub_set_state
  hub_state_is awaiting_stop awaiting_start current_id setTimeout logger
  emit update reads try_catch to_Error mbind mret mthrow Js_bind Js_ret
  Js_throw Js_throw_error : service.

(** Unfolds the methods down to plain functions on worlds. *)
Ltac unfold_service := repeat autounfold with service.

(** Splits on every test a method performs. *)
Ltac crunch :=
  repeat first
    [ progress simpl in *
    | progress simplify_eq
    | case_match ].

(** ** Traces *)

Lemma grows_trans P a b c : grows P a b → grows P b c → grows P a c.
Proof. intros Hab Hbc. induction Hbc; [done | by constructor]. Qed.

Lemma grows_app P old t :
  grows P old t ↔ ∃ new, t = new ++ old ∧ Forall P new.
Proof.
  split.
  - induction 1 as [| e t He _ (new & -> & Hnew)].
    + by exists [].
    + exists (e :: new). split; [done | by constructor].
  - intros (new & -> & Hnew). induction Hnew; simpl; by constructor.
Qed.

Lemma run_snoc config ctl evs ev w :
  run config ctl (evs ++ [ev]) w = step config ctl ev (run config ctl evs w).
Proof. unfold run. by rewrite foldl_app. Qed.

(** ** Transport selection *)

Lemma toInt32_range x : - 2 ^ 31 ≤ toInt32 x < 2 ^ 31.
Proof.
  unfold toInt32. pose proof (Z.mod_pos_bound (x + 2 ^ 31) (2 ^ 32)). lia.
Qed.

Lemma toInt32_low_bits x i :
  0 ≤ i < 32 → Z.testbit (toInt32 x) i = Z.testbit x i.
Proof.
  intros Hi.
  rewrite <- (Z.mod_pow2_bits_low (toInt32 x) 32 i),
          <- (Z.mod_pow2_bits_low x 32 i) by lia.
  f_equal. unfold toInt32.
  rewrite Zminus_mod_idemp_l. f_equal. lia.
Qed.

(** Above bit 30 a signed 32-bit integer repeats its sign. *)
Lemma signed_high_bits y i :
  - 2 ^ 31 ≤ y < 2 ^ 31 → 31 ≤ i → Z.testbit y i = (y <? 0).
Proof.
  intros Hy Hi.
  assert (Hpow : 2 ^ 31 ≤ 2 ^ i) by (apply Z.pow_le_mono_r; lia).
  destruct (Z.ltb_spec y 0) as [Hneg | Hpos].
  - apply Z.bits_above_log2_neg; [lia |].
    destruct (Z.eq_dec y (-1)) as [-> | Hne]; [simpl; lia |].
    apply Z.log2_lt_pow2; lia.
  - destruct (Z.eq_dec y 0) as [-> | Hne]; [apply Z.bits_0 |].
    apply Z.bits_above_log2; [lia |].
    apply Z.log2_lt_pow2; lia.
Qed.

Lemma toInt32_testbit x i :
  0 ≤ i → Z.testbit (toInt32 x) i = Z.testbit x (Z.min i 31).
Proof.
  intros Hi. destruct (Z_lt_le_dec i 32) as [Hlow | Hhigh].
  - rewrite toInt32_low_bits by lia. f_equal. lia.
  - rewrite Z.min_r by lia.
    rewrite <- (toInt32_low_bits x 31) by lia.
    rewrite !(signed_high_bits (toInt32 x)) by (auto using toInt32_range; lia).
    reflexivity.
Qed.

(** Compares two numbers bit by bit. *)
Ltac bitwise :=
  apply Z.bits_inj'; intros i Hi;
  repeat first
    [ rewrite Z.land_spec | rewrite Z.lor_spec
    | rewrite toInt32_testbit by lia ];
  rewrite <- ?Z.min_assoc, ?Z.min_id.

Lemma js_and_js_or_distr a b f :
  js_and (js_or a b) f = Z.lor (js_and a f) (js_and b f).
Proof.
  unfold js_and, js_or. bitwise.
  destruct (Z.testbit a _), (Z.testbit b _), (Z.testbit f _); reflexivity.
Qed.

Lemma js_and_mask t a b c f :
  f = a ∨ f = b ∨ f = c →
  js_and (js_and t (js_or (js_or a b) c)) f = js_and t f.
Proof.
  intros Hf. unfold js_and, js_or. bitwise.
  destruct Hf as [-> | [-> | ->]];
    destruct (Z.testbit t _), (Z.testbit a _), (Z.testbit b _),
             (Z.testbit c _); reflexivity.
Qed.

Lemma truthy_lor x y : truthy (Z.lor x y) = truthy x || truthy y.
Proof.
  unfold truthy.
  destruct (Z.eqb_spec (Z.lor x y) 0) as [H0 | Hn0].
  - apply Z.lor_eq_0_iff in H0 as [-> ->]. reflexivity.
  - destruct (Z.eqb_spec x 0) as [-> | Hx]; [| reflexivity].
    destruct (Z.eqb_spec y 0) as [-> | Hy]; [| reflexivity].
    exfalso. apply Hn0. reflexivity.
Qed.

(** The result has one bit per flag whose test succeeds. *)
Lemma mapTransportType_bits TT t :
  mapTransportType TT t =
  Z.lor (Z.lor (flag_value (truthy (js_and t (WebSockets TT))) 1)
               (flag_value (truthy (js_and t (ServerSentEvents TT))) 2))
        (flag_value (truthy (js_and t (LongPolling TT))) 4).
Proof.
  unfold mapTransportType.
  destruct (truthy (js_and t (WebSockets TT))),
           (truthy (js_and t (ServerSentEvents TT))),
           (truthy (js_and t (LongPolling TT))); reflexivity.
Qed.

(** C9. [mapTransportType] is a homomorphism of bit masks: the image of
    the bitwise or of two preferences is the bitwise or of their
    images, the empty preference is mapped to [None], and the result
    depends only on the bits of the three flags [WebSockets],
    [ServerSentEvents] and [LongPolling], whatever values the
    enumeration gives them. *)
Theorem mapTransportType_homomorphism TT a b t :
    mapTransportType TT (js_or a b)
    = js_or (mapTransportType TT a) (mapTransportType TT b)
  ∧ mapTransportType TT 0 = HttpTransportType.None
  ∧ mapTransportType TT t
    = mapTransportType TT
        (js_and t (js_or (js_or (WebSockets TT) (ServerSentEvents TT))
                         (LongPolling TT))).
Proof.
  split; [| split].
  - rewrite !mapTransportType_bits, !js_and_js_or_distr, !truthy_lor.
    destruct (truthy (js_and a (WebSockets TT))),
             (truthy (js_and a (ServerSentEvents TT))),
             (truthy (js_and a (LongPolling TT))),
             (truthy (js_and b (WebSockets TT))),
             (truthy (js_and b (ServerSentEvents TT))),
             (truthy (js_and b (LongPolling TT))); reflexivity.
  - reflexivity.
  - rewrite !mapTransportType_bits, !js_and_mask by tauto. reflexivity.
Qed.

(** ** Argument sanitisation *)

(** [sanitizeParameters] never throws, returns the sanitised value and
    does nothing but log. *)
Lemma sanitizeParameters_value params w :
  ∃ log, sanitizeParameters params w = (Returned (sanitized params), said log w)
         ∧ Forall router_effect log
         ∧ controller_calls log = [].
Proof.
  destruct w, params;
    first [ by exists []
          | eexists [_]; split; [reflexivity | by repeat constructor] ].
Qed.

(** C5. Argument sanitisation is total: on every raw value it returns
    without throwing and changes nothing but the log; a mapping (an
    object that is not an array) is returned unchanged, and every other
    value (array, primitive, [null], [undefined]) yields the empty
    mapping.  In particular [sanitize(null) = {}],
    [sanitize([1,2]) = {}] and [sanitize({a:1}) = {a:1}]. *)
Theorem sanitizeParameters_total params w :
    (∃ log, sanitizeParameters params w
            = (Returned (if is_mapping params then params else JsObject []),
               said log w))
  ∧ (sanitizeParameters JsNull w).1 = Returned (JsObject [])
  ∧ (sanitizeParameters JsUndefined w).1 = Returned (JsObject [])
  ∧ (sanitizeParameters (JsArray [JsNumber 1; JsNumber 2]) w).1
    = Returned (JsObject [])
  ∧ (sanitizeParameters (JsObject [("a", JsNumber 1)]) w).1
    = Returned (JsObject [("a", JsNumber 1)]).
Proof.
  split; [| by destruct w].
  destruct (sanitizeParameters_value params w) as (log & Hlog & _). eauto.
Qed.

(** ** Tool invocation *)

(** The default of [invokeTool]'s parameter is what sanitisation makes
    of [undefined] anyway. *)
Lemma sanitized_or_default params :
  sanitized (or_default params empty_object) = sanitized params.
Proof. by destruct params. Qed.

(** With a controller present [invokeTool] hands it the single-item
    batch exactly once, and ends as [delegated] says. *)
Lemma invokeTool_delegates controller toolName params w :
  ∃ log,
    invokeTool (Some controller) toolName params w
    = (delegated controller toolName params, said log w)
    ∧ controller_calls log = [batch_for toolName params]
    ∧ Forall router_effect log.
Proof.
  unfold invokeTool, delegated, reported, controller_start, batch_for.
  destruct (sanitizeParameters_value (or_default params empty_object) w)
    as (log & Hsan & Hlog & Hcalls).
  rewrite sanitized_or_default in Hsan.
  unfold_service. rewrite Hsan. simpl.
  destruct (controller _) as [results | [thrown | raises]].
  - destruct (first_result results) as [result |]; simpl;
      exists (ControllerStart
                [{| toolId := toolName; params := sanitized params |}] :: log);
      (split; [by destruct w |]); simpl; rewrite Hcalls;
      (split; [done | by constructor]).
  - eexists (_ :: _ :: log). split; [by destruct w |]. simpl.
    rewrite Hcalls. split; [done | by repeat constructor].
  - eexists (_ :: _ :: log). split; [by destruct w |]. simpl.
    rewrite Hcalls. split; [done | by repeat constructor].
Qed.

(** The ['InvokeTool'] handler ends as [handled] says, having done
    nothing but log and call the controller; the event loop then
    records the reply, or the rejection of the handler's promise. *)
Lemma step_InvokeTool config ctl toolName args w :
  ∃ log,
    on_InvokeTool ctl toolName args w = (handled ctl toolName args, said log w)
    ∧ step config ctl (PeerInvokeTool toolName args) w
      = said (settled (handled ctl toolName args) :: log) w
    ∧ Forall router_effect log
    ∧ controller_calls log
      = match ctl with
        | Some _ => [batch_for toolName args]
        | None => []
        end.
Proof.
  assert (Hstep : ∀ outcome log,
            on_InvokeTool ctl toolName args w = (outcome, said log w) →
            step config ctl (PeerInvokeTool toolName args) w
            = said (settled outcome :: log) w).
  { intros outcome log Hrun. unfold step. rewrite Hrun.
    by destruct outcome, w. }
  assert (Hrun : ∃ log,
            on_InvokeTool ctl toolName args w
            = (handled ctl toolName args, said log w)
            ∧ Forall router_effect log
            ∧ controller_calls log
              = match ctl with
                | Some _ => [batch_for toolName args]
                | None => []
                end).
  { unfold on_InvokeTool, handled. destruct ctl as [controller |].
    - destruct (invokeTool_delegates controller toolName args
                  (said [Logged LogLog
                           ("Received tool invocation request: " +:+ toolName)]
                        w))
        as (log & Hinvoke & Hcalls & Hlog).
      pose (received := Logged LogLog
                          ("Received tool invocation request: " +:+ toolName)).
      unfold_service. simpl. unfold said in Hinvoke. simpl in Hinvoke.
      destruct w; simpl in *. rewrite Hinvoke.
      destruct (delegated controller toolName args)
        as [result | [thrown | raises]]; simpl.
      + exists (log ++ [received]). split; [| split].
        * unfold said. simpl. by rewrite <- app_assoc.
        * apply Forall_app. split; [done | by repeat constructor].
        * unfold controller_calls in *. by rewrite omap_app, Hcalls.
      + exists (Logged LogError "Error executing tool:" :: log ++ [received]).
        split; [| split].
        * unfold said. simpl. by rewrite <- app_assoc.
        * constructor; [done |].
          apply Forall_app. split; [done | by repeat constructor].
        * unfold controller_calls in *. simpl. by rewrite omap_app, Hcalls.
      + exists (Logged LogError "Error executing tool:" :: log ++ [received]).
        split; [| split].
        * unfold said. simpl. by rewrite <- app_assoc.
        * constructor; [done |].
          apply Forall_app. split; [done | by repeat constructor].
        * unfold controller_calls in *. simpl. by rewrite omap_app, Hcalls.
    - destruct w. eexists [_; _].
      split; [reflexivity | split; [by repeat constructor | done]]. }
  destruct Hrun as (log & Hrun & Hlog & Hcalls).
  exists log. split; [done |]. split; [by apply Hstep | done].
Qed.

(** C7. The boundary does not hold for every exception.  Both [catch]
    blocks of the invocation path turn what they caught into an
    [Error] with [String(error)], outside any [try].  The handler ends
    as follows: without a controller, with the failure envelope of the
    error thrown by [invokeTool]; when the controller rejects with an
    [Error] or a value that converts to a string, with the failure
    envelope of its message; when the controller rejects with a value
    whose conversion throws something that can be reported, with the
    failure envelope of that, caught by the handler's own [catch]; but
    when the conversion throws a value whose conversion throws again,
    the second throw leaves the handler, whose promise is rejected, and
    the request gets a fault instead of an envelope.  So it is for a
    controller rejecting with such a value in the constructor's state. *)
Theorem on_InvokeTool_conversion_fault_escapes :
  (∀ config ctl toolName toolArguments w,
     ∃ outcome log,
       on_InvokeTool ctl toolName toolArguments w = (outcome, said log w)
       ∧ step config ctl (PeerInvokeTool toolName toolArguments) w
         = said (settled outcome :: log) w
       ∧ Forall router_effect log
       ∧ match ctl with
         | None =>
             outcome
             = Returned
                 (createErrorResult
                    (ErrorObject
                       "MCP Controller not set. Call setMCPController() first."))
         | Some controller =>
             match controller (batch_for toolName toolArguments) with
             | Resolves _ => ∃ result, outcome = Returned result
             | Rejects (Stringable thrown) =>
                 outcome
                 = Returned {| success := false; content := None;
                               error := Some (message_of thrown) |}
             | Rejects (Unstringable (Stringable thrown)) =>
                 outcome
                 = Returned {| success := false; content := None;
                               error := Some (message_of thrown) |}
             | Rejects (Unstringable (Unstringable raises)) =>
                 outcome = Threw raises
             end
         end)
  ∧ (let controller := rejects_unreportably (ErrorObject "again") in
     let request := PeerInvokeTool "open-settings" (JsObject []) in
     (on_InvokeTool (Some controller) "open-settings" (JsObject []) initial).1
     = Threw (Stringable (ErrorObject "again"))
     ∧ history (step standard (Some controller) request initial)
       = [Logged LogLog "Received tool invocation request: open-settings";
          ControllerStart
            [{| toolId := "open-settings"; params := JsObject [] |}];
          Logged LogError "Tool execution failed for open-settings:";
          Logged LogError "Error executing tool:";
          Rejected (Stringable (ErrorObject "again"))]).
Proof.
  split; [| by vm_compute].
  intros config ctl toolName toolArguments w.
  destruct (step_InvokeTool config ctl toolName toolArguments w)
    as (log & Hrun & Hstep & Hlog & _).
  exists (handled ctl toolName toolArguments), log.
  split; [done |]. split; [done |]. split; [done |].
  unfold handled, delegated, reported. destruct ctl as [controller |]; [| done].
  destruct (controller _) as [results | [thrown | [thrown | raises]]];
    try done.
  by eexists.
Qed.

(** C10. When the controller's batch call resolves to a list whose
    first element is missing (an empty list, or an [undefined] entry),
    [invokeTool] returns the failure envelope saying that no result was
    returned from tool execution, and the request is answered with
    exactly that one envelope. *)
Theorem missing_first_result_is_reported config controller toolName params
    results w :
  controller (batch_for toolName params) = Resolves results →
  results !! 0%nat = None ∨ results !! 0%nat = Some None →
  let answer :=
    createErrorResult (ErrorObject "No result returned from tool execution") in
  answer = {| success := false; content := None;
              error := Some "No result returned from tool execution" |}
  ∧ (∃ log, invokeTool (Some controller) toolName params w
            = (Returned answer, said log w))
  ∧ (∃ log, step config (Some controller) (PeerInvokeTool toolName params) w
            = said (Replied answer :: log) w
            ∧ Forall router_effect log).
Proof.
  intros Hcontroller Hfirst answer.
  assert (Hanswer : delegated controller toolName params = Returned answer).
  { unfold delegated, first_result. rewrite Hcontroller.
    by destruct Hfirst as [-> | ->]. }
  split; [done |]. split.
  - destruct (invokeTool_delegates controller toolName params w)
      as (log & Hrun & _). rewrite Hanswer in Hrun. eauto.
  - destruct (step_InvokeTool config (Some controller) toolName params w)
      as (log & _ & Hstep & Hlog & _).
    exists log. split; [| done].
    rewrite Hstep. unfold handled. by rewrite Hanswer.
Qed.

Lemma missing_first_result_is_reported_witness :
  let answer := failure "No result returned from tool execution" in
  answers_nothing (batch_for "open-settings" JsNull) = Resolves []
  ∧ (∃ log, invokeTool (Some answers_nothing) "open-settings" JsNull initial
            = (Returned answer, said log initial))
  ∧ (∃ log, step standard (Some answers_nothing)
                 (PeerInvokeTool "open-settings" JsNull) initial
            = said (Replied answer :: log) initial
            ∧ Forall router_effect log).
Proof.
  split; [reflexivity |].
  apply (missing_first_result_is_reported standard answers_nothing
           "open-settings" JsNull [] initial);
    [reflexivity | left; reflexivity].
Defined.




(** ** Starting the connection *)

(** C4. [start()] is idempotent on an established or in-progress
    connection: when the channel is [Connected], and likewise when it is
    [Connecting], the call asks the transport for nothing, only logs,
    returns normally, and leaves the connection object, the retry
    counter, the manual-disconnect flag, the pending timers and the
    pending attempts unchanged. *)
Theorem start_idempotent config ctl (w : World) (hub : HubConnection) :
  connection w = Some hub →
  state hub = Connected ∨ state hub = Connecting →
  let text :=
    if HubConnectionState_eqb (state hub) Connected
    then "SignalR connection already established"
    else "SignalR connection attempt already in progress" in
  let w' := step config ctl CallStart w in
    start_begin w = (Returned Finished, said [Logged LogLog text] w)
  ∧ w' = said [Logged LogLog text] w
  ∧ connection w' = connection w
  ∧ reconnectAttempts w' = reconnectAttempts w
  ∧ isManuallyDisconnected w' = isManuallyDisconnected w
  ∧ timers w' = timers w
  ∧ starting w' = starting w.
Proof.
  intros Hconnection Hstate text w'.
  assert (Hbegin : start_begin w
                   = (Returned Finished, said [Logged LogLog text] w)).
  { unfold start_begin, text. unfold_service. rewrite Hconnection.
    destruct Hstate as [-> | ->]; by destruct w. }
  assert (Hstep : w' = said [Logged LogLog text] w).
  { unfold w', step, run_until_await. by rewrite Hbegin. }
  rewrite Hstep. by repeat split.
Qed.

Lemma start_idempotent_witness :
  let w := run standard None
               [CallStart; HubStartSettles 0 (StartFulfilled "c1")] initial in
  connection w = Some {| state := Connected; connectionId := Some "c1" |}
  ∧ step standard None CallStart w
    = said [Logged LogLog "SignalR connection already established"] w.
Proof.
  intros w. split; [reflexivity |].
  apply (start_idempotent standard None w
           {| state := Connected; connectionId := Some "c1" |});
    [reflexivity | left; reflexivity].
Defined.

(** C8. A call of [start()] that goes on to attempt the connection asks
    the transport exactly once and is then suspended.  Whatever world
    [later] the service is in when the attempt settles: if the attempt
    succeeds, the channel is [Connected] and the retry counter is 0 when
    [start()] returns; if it fails, [start()] throws the connection
    error to its caller after logging it, arms no timer and asks the
    transport for nothing more. *)
Theorem start_attempt_outcome (w w1 : World) :
  start_begin w = (Returned Suspended, w1) →
    trace w1 = HubStart :: trace w
  ∧ connection w1 ≠ None
  ∧ (∀ later id,
       connection later ≠ None →
       ∃ w2,
         start_resume (StartFulfilled id)
                      (hub_start_settled (StartFulfilled id) later)
         = (Returned (), w2)
         ∧ hub_state_is Connected w2 = true
         ∧ reconnectAttempts w2 = 0
         ∧ trace w2
           = Logged LogLog "SignalR connection started successfully"
               :: trace later)
  ∧ (∀ later e,
       ∃ w2,
         start_resume (StartRejected e)
                      (hub_start_settled (StartRejected e) later)
         = (Threw (ErrorObject
                     ("Failed to start SignalR connection: "
                        +:+ message_of e)),
            w2)
         ∧ trace w2
           = Logged LogError "Error starting SignalR connection:"
               :: trace later
         ∧ timers w2 = timers later
         ∧ starting w2 = starting later
         ∧ reconnectAttempts w2 = reconnectAttempts later).
Proof.
  intros Hbegin. split; [| split; [| split]].
  - revert Hbegin. unfold start_begin. unfold_service.
    destruct w as [[[s id0] |] n manual ts st sp tr]; simpl; [| done].
    destruct s; simpl; by intros [= <-].
  - revert Hbegin. unfold start_begin. unfold_service.
    destruct w as [[[s id0] |] n manual ts st sp tr]; simpl; [| done].
    destruct s; simpl; by intros [= <-].
  - intros later id Hlater. unfold start_resume. unfold_service.
    destruct later as [[hub |] n manual ts st sp tr]; simpl in *; [| done].
    eexists. split; [reflexivity | done].
  - intros later e. unfold start_resume. unfold_service.
    destruct later as [[[s id0] |] n manual ts st sp tr]; simpl.
    + destruct s; simpl; eexists; split; try reflexivity; done.
    + eexists. split; [reflexivity | done].
Qed.

Lemma start_attempt_outcome_witness :
  ∃ w1, start_begin initial = (Returned Suspended, w1)
    ∧ trace w1 = [HubStart]
    ∧ (∃ w2, start_resume (StartFulfilled "c1")
                          (hub_start_settled (StartFulfilled "c1") w1)
             = (Returned (), w2)
             ∧ hub_state_is Connected w2 = true
             ∧ reconnectAttempts w2 = 0)
    ∧ (∃ w2, start_resume (StartRejected (ErrorObject "offline"))
                          (hub_start_settled
                             (StartRejected (ErrorObject "offline")) w1)
             = (Threw (connection_error (ErrorObject "offline")), w2)
             ∧ timers w2 = timers w1).
Proof.
  pose (w1 := said [HubStart] (hub_set_state Connecting None initial)).
  exists w1. split; [reflexivity |].
  destruct (start_attempt_outcome initial w1 eq_refl)
    as (Htrace & Hconnection & Hup & Hdown).
  split; [exact Htrace |]. split.
  - destruct (Hup w1 "c1" Hconnection) as (w2 & Hrun & Hstate & Hcount & _).
    exists w2. repeat split; assumption.
  - destruct (Hdown w1 (ErrorObject "offline"))
      as (w2 & Hrun & _ & Htimers & _).
    exists w2. split; [exact Hrun | exact Htimers].
Defined.

(** ** Scheduling a retry *)

(** [scheduleReconnect] case by case: it logs the exhaustion and
    returns, or it counts one more attempt and arms its timer. *)
Lemma scheduleReconnect_cases config w :
  scheduleReconnect config w =
  (Returned (),
   if isManuallyDisconnected w
      || (reconnectAttempts w >=? maxRetryAttempts config)
   then said [Logged LogError (exhausted_message config)] w
   else retry_scheduled config w).
Proof.
  destruct w as [c n manual ts st sp tr]. unfold_service. simpl.
  by destruct (manual || _).
Qed.

(** The delay of a retry grows without a cap. *)
Lemma retry_delay_uncapped config attempt :
  31000 ≤ retry_delay config attempt →
  ¬ within_capped_delay config attempt (retry_delay config attempt).
Proof. unfold within_capped_delay. lia. Qed.

(** A rounded value stays between the integers that enclose the exact
    one. *)
Lemma double_between double (lo hi : Z) (x : Q) :
  rounds_like_double double →
  - 2 ^ 53 ≤ lo → hi ≤ 2 ^ 53 →
  (inject_Z lo <= x)%Q → (x <= inject_Z hi)%Q →
  (inject_Z lo <= double x)%Q ∧ (double x <= inject_Z hi)%Q.
Proof.
  intros [Hmono Hexact] Hlo Hhi Hlower Hupper.
  assert (Horder : lo ≤ hi).
  { rewrite Zle_Qle. by apply Qle_trans with x. }
  split.
  - apply Qle_trans with (double (inject_Z lo)); [| by apply Hmono].
    apply Qle_lteq. right. symmetry. apply Hexact. lia.
  - apply Qle_trans with (double (inject_Z hi)); [by apply Hmono |].
    apply Qle_lteq. right. apply Hexact. lia.
Qed.

(** The retry policy handed to the transport does cap the delay at 30
    seconds and adds a jitter of at most one second: the jitter drawn is
    below one second, and the rounding of the sum can reach it. *)
Lemma nextRetryDelayInMilliseconds_bounds double config previousRetryCount
    random :
  rounds_like_double double →
  1 ≤ baseRetryDelayMs config →
  0 ≤ previousRetryCount →
  (0 <= random)%Q → (random < 1)%Q →
  let capped :=
    Z.min (baseRetryDelayMs config * 2 ^ previousRetryCount) 30000 in
  (inject_Z capped
   <= nextRetryDelayInMilliseconds double config previousRetryCount random)%Q
  ∧ (nextRetryDelayInMilliseconds double config previousRetryCount random
     <= inject_Z capped + 1000)%Q.
Proof.
  intros Hdouble Hbase Hcount Hlo Hhi capped.
  unfold nextRetryDelayInMilliseconds. fold capped.
  assert (Hcapped : 0 ≤ capped ≤ 30000).
  { pose proof (Z.pow_nonneg 2 previousRetryCount). unfold capped. nia. }
  destruct (double_between double 0 1000 (random * 1000) Hdouble)
    as [Hjitter_lo Hjitter_hi]; try lia.
  { change (inject_Z 0) with 0%Q. lra. }
  { change (inject_Z 1000) with (1000 # 1)%Q. lra. }
  change (inject_Z 0) with 0%Q in Hjitter_lo.
  change (inject_Z 1000) with (1000 # 1)%Q in Hjitter_hi.
  destruct (double_between double capped (capped + 1000)
              (inject_Z capped + double (random * 1000))%Q Hdouble)
    as [Hlower Hupper]; try lia.
  { lra. }
  { rewrite inject_Z_plus. change (inject_Z 1000) with (1000 # 1)%Q. lra. }
  split; [done |].
  rewrite inject_Z_plus in Hupper.
  by change (inject_Z 1000) with (1000 # 1)%Q in Hupper.
Qed.

(** C1. The delay of a retry armed by [scheduleReconnect] is
    [baseRetryDelayMs * 2^(attempt-1)], with neither the 30-second cap
    nor the jitter of the policy handed to the transport.  With the
    default options, after a close followed by five failed attempts the
    sixth retry is armed with a delay of 32000 ms, which is outside
    [[30000, 31000)]. *)
Theorem sixth_retry_is_uncapped :
  let failed := StartRejected (ErrorObject "offline") in
  let w :=
    run standard None
        [CallStart; HubStartSettles 0 (StartFulfilled "c1"); HubClosed None;
         TimerFires 0; HubStartSettles 0 failed;
         TimerFires 0; HubStartSettles 0 failed;
         TimerFires 0; HubStartSettles 0 failed;
         TimerFires 0; HubStartSettles 0 failed;
         TimerFires 0; HubStartSettles 0 failed] initial in
  isManuallyDisconnected w = false
  ∧ reconnectAttempts w = 6
  ∧ timers w = [retry_delay standard 6]
  ∧ retry_delay standard 6 = 32000
  ∧ ¬ within_capped_delay standard 6 32000.
Proof.
  repeat split. unfold within_capped_delay. vm_compute. by intros [_ ?].
Qed.

(** ** Invariants of the event loop *)

Lemma step_disposed_implies_manual config ctl ev w :
  disposed_implies_manual w → disposed_implies_manual (step config ctl ev w).
Proof.
  unfold disposed_implies_manual. intros Hinv.
  destruct ev as [| | | i r | i r | err | err | id | i | toolName args];
    destruct w as [c n manual ts st sp tr]; simpl in Hinv.
  10: { destruct (step_InvokeTool config ctl toolName args
                    {| connection := c; reconnectAttempts := n;
                       isManuallyDisconnected := manual; timers := ts;
                       starting := st; stopping := sp; trace := tr |})
          as (log & _ & -> & _). exact Hinv. }
  all: unfold_service; crunch; auto; try done.
Qed.

Lemma run_disposed_implies_manual config ctl evs :
  disposed_implies_manual (run config ctl evs initial).
Proof.
  induction evs as [| ev evs IH] using rev_ind; [done |].
  rewrite run_snoc. by apply step_disposed_implies_manual.
Qed.

(** The counter is never negative and never exceeds the bound. *)
Lemma step_counter_in_budget config ctl ev w :
  counter_in_budget config w → counter_in_budget config (step config ctl ev w).
Proof.
  unfold counter_in_budget. intros Hinv.
  destruct ev as [| | | i r | i r | err | err | id | i | toolName args];
    destruct w as [c n manual ts st sp tr]; simpl in Hinv.
  10: { destruct (step_InvokeTool config ctl toolName args
                    {| connection := c; reconnectAttempts := n;
                       isManuallyDisconnected := manual; timers := ts;
                       starting := st; stopping := sp; trace := tr |})
          as (log & _ & -> & _). exact Hinv. }
  all: unfold_service; crunch; lia.
Qed.

Lemma run_counter_in_budget config ctl evs :
  counter_in_budget config (run config ctl evs initial).
Proof.
  induction evs as [| ev evs IH] using rev_ind.
  - unfold counter_in_budget. simpl. lia.
  - rewrite run_snoc. by apply step_counter_in_budget.
Qed.

(** [stop()] leaves the manual-disconnect flag set. *)
Lemma stop_sets_manual config ctl w :
  disposed_implies_manual w →
  isManuallyDisconnected (step config ctl CallStop w) = true.
Proof.
  unfold disposed_implies_manual.
  destruct w as [[hub |] n manual ts st sp tr];
    simpl; intros Hinv; unfold_service; crunch; auto.
Qed.

(** While the flag is set, no event but a call of [start()] clears it,
    arms a timer or asks the transport to connect. *)
Lemma step_after_stop config ctl ev w :
  ev ≠ CallStart →
  isManuallyDisconnected w = true →
  isManuallyDisconnected (step config ctl ev w) = true
  ∧ grows quiet (trace w) (trace (step config ctl ev w)).
Proof.
  intros Hev Hflag.
  destruct ev as [| | | i r | i r | err | err | id | i | toolName args];
    try done;
    destruct w as [c n manual ts st sp tr]; simpl in Hflag; subst manual.
  9: { destruct (step_InvokeTool config ctl toolName args
                   {| connection := c; reconnectAttempts := n;
                      isManuallyDisconnected := true; timers := ts;
                      starting := st; stopping := sp; trace := tr |})
         as (log & _ & -> & Hlog & _). simpl. split; [done |].
       constructor; [by destruct (handled ctl toolName args) |].
       apply grows_app. exists log. split; [done |].
       eapply Forall_impl; [exact Hlog |]. by intros []. }
  all: unfold_service; crunch.
  all: split; [done | repeat constructor].
Qed.

Lemma run_after_stop config ctl evs w :
  Forall (λ ev, ev ≠ CallStart) evs →
  isManuallyDisconnected w = true →
  isManuallyDisconnected (run config ctl evs w) = true
  ∧ grows quiet (trace w) (trace (run config ctl evs w)).
Proof.
  intros Hevs. revert w.
  induction Hevs as [| ev evs Hev _ IH]; intros w Hflag; simpl.
  - split; [done | constructor].
  - destruct (step_after_stop config ctl ev w Hev Hflag) as [Hflag' Hgrow].
    destruct (IH _ Hflag') as [Hflag'' Hgrow'].
    split; [done | by eapply grows_trans].
Qed.

(** ** Manual disconnection *)

(** With the flag set, a retry timer that runs out is spent and nothing
    else happens. *)
Lemma timer_after_stop config ctl i delay w :
  isManuallyDisconnected w = true →
  timers w !! i = Some delay →
  step config ctl (TimerFires i) w = with_timers (delete i (timers w)) w.
Proof.
  intros Hflag Hi. unfold step. rewrite Hi.
  unfold run_until_await, timer_begin. unfold_service.
  destruct w; simpl in *. by subst.
Qed.

(** With the flag set, a close notification is logged and nothing else
    happens. *)
Lemma close_after_stop config ctl err w :
  isManuallyDisconnected w = true →
  ∃ m text, step config ctl (HubClosed err) w
            = said [Logged m text] (hub_set_state Disconnected None w).
Proof.
  intros Hflag. unfold step, finish, on_close, hub_set_state. unfold_service.
  destruct w as [[hub |] n manual ts st sp tr], err; simpl in *; subst;
    by eexists _, _.
Qed.

(** C2. After [stop()] and as long as [start()] is not called again, no
    reconnect attempt is scheduled or performed, whatever the transport
    delivers and in whatever order: the flag stays set, and no event
    arms a timer or asks the transport to connect.  In particular a
    close notification is only logged, and a retry timer that was
    pending when [stop()] was called is spent without any attempt to
    connect when it runs out. *)
Theorem no_reconnect_after_stop config ctl (before after : list Event) :
  Forall (λ ev, ev ≠ CallStart) after →
  let stopped := run config ctl (before ++ [CallStop]) initial in
  isManuallyDisconnected stopped = true
  ∧ isManuallyDisconnected (run config ctl after stopped) = true
  ∧ (∃ new, trace (run config ctl after stopped) = new ++ trace stopped
            ∧ Forall (λ e, reconnect_action e = false) new)
  ∧ (∀ err, ∃ m text,
       step config ctl (HubClosed err) stopped
       = said [Logged m text] (hub_set_state Disconnected None stopped))
  ∧ (∀ i delay,
       timers stopped !! i = Some delay →
       step config ctl (TimerFires i) stopped
       = with_timers (delete i (timers stopped)) stopped).
Proof.
  intros Hafter stopped.
  assert (Hflag : isManuallyDisconnected stopped = true).
  { unfold stopped. rewrite run_snoc.
    apply stop_sets_manual, run_disposed_implies_manual. }
  destruct (run_after_stop config ctl after stopped Hafter Hflag)
    as [Hflag' Hgrows].
  split; [done |]. split; [done |]. split; [by apply grows_app |].
  split.
  - intros err. by apply close_after_stop.
  - intros i delay. by apply timer_after_stop.
Qed.

Lemma no_reconnect_after_stop_witness :
  let before :=
    [CallStart; HubStartSettles 0 (StartFulfilled "c1"); HubClosed None] in
  let after :=
    [TimerFires 0; HubClosed (Some (ErrorObject "gone")); CallDispose] in
  let stopped := run standard None (before ++ [CallStop]) initial in
  timers stopped = [1000]
  ∧ isManuallyDisconnected stopped = true
  ∧ (∃ new, trace (run standard None after stopped) = new ++ trace stopped
            ∧ Forall (λ e, reconnect_action e = false) new)
  ∧ step standard None (TimerFires 0) stopped = with_timers [] stopped.
Proof.
  intros before after stopped.
  assert (Hafter : Forall (λ ev, ev ≠ CallStart) after)
    by (repeat constructor; discriminate).
  assert (Htimers : timers stopped = [1000]) by (by vm_compute).
  destruct (no_reconnect_after_stop standard None before after Hafter)
    as (Hflag & _ & Hquiet & _ & Htimer).
  split; [exact Htimers |]. split; [exact Hflag |]. split; [exact Hquiet |].
  fold stopped in Htimer. rewrite (Htimer 0%nat 1000).
  - by rewrite Htimers.
  - by rewrite Htimers.
Defined.

(** ** Exhaustion of the retry budget *)

(** Once the budget is used up and no retry is pending, only a call of
    [start()] or a reconnected notification changes that. *)
Lemma step_exhausted config ctl ev w :
  resumes_retries ev = false →
  maxRetryAttempts config ≤ reconnectAttempts w →
  timers w = [] → starting w = [] →
  (maxRetryAttempts config ≤ reconnectAttempts (step config ctl ev w)
   ∧ timers (step config ctl ev w) = []
   ∧ starting (step config ctl ev w) = [])
  ∧ grows quiet (trace w) (trace (step config ctl ev w)).
Proof.
  intros Hev Hmax Hts Hst.
  destruct ev as [| | | i r | i r | err | err | id | i | toolName args];
    try done;
    destruct w as [c n manual ts st sp tr]; simpl in Hmax, Hts, Hst;
    subst ts st.
  8: { destruct (step_InvokeTool config ctl toolName args
                   {| connection := c; reconnectAttempts := n;
                      isManuallyDisconnected := manual; timers := [];
                      starting := []; stopping := sp; trace := tr |})
         as (log & _ & -> & Hlog & _). simpl. split; [done |].
       constructor; [by destruct (handled ctl toolName args) |].
       apply grows_app. exists log. split; [done |].
       eapply Forall_impl; [exact Hlog |]. by intros []. }
  all: unfold_service; crunch;
    try (split; [done | repeat constructor]).
  all: lia.
Qed.

Lemma run_exhausted config ctl evs w :
  Forall (λ ev, resumes_retries ev = false) evs →
  maxRetryAttempts config ≤ reconnectAttempts w →
  timers w = [] → starting w = [] →
  (maxRetryAttempts config ≤ reconnectAttempts (run config ctl evs w)
   ∧ timers (run config ctl evs w) = []
   ∧ starting (run config ctl evs w) = [])
  ∧ grows quiet (trace w) (trace (run config ctl evs w)).
Proof.
  intros Hevs. revert w.
  induction Hevs as [| ev evs Hev _ IH]; intros w Hmax Hts Hst; simpl.
  - split; [done | constructor].
  - destruct (step_exhausted config ctl ev w Hev Hmax Hts Hst)
      as [(Hmax' & Hts' & Hst') Hgrow].
    destruct (IH _ Hmax' Hts' Hst') as [Hinv Hgrow'].
    split; [done | by eapply grows_trans].
Qed.

(** The close handler never throws, and with the budget used up it does
    nothing but log. *)
Lemma on_close_exhausted config err w :
  maxRetryAttempts config ≤ reconnectAttempts w →
  ∃ log, on_close config err w = (Returned (), said log w)
         ∧ Forall only_logged log.
Proof.
  intros Hmax. unfold on_close. unfold_service.
  destruct w as [c n manual ts st sp tr]; simpl in *.
  destruct err, manual; simpl;
    try (eexists [_]; split; [reflexivity | by repeat constructor]).
  all: destruct (n >=? maxRetryAttempts config) eqn:Hguard; [| lia].
  all: eexists [_; _]; split; [reflexivity | by repeat constructor].
Qed.

(** C3 as stated fails when two retries overlap.  With room for a single
    retry: the channel closes (a retry timer is armed), the caller
    reconnects with [start()] before the timer runs out, the channel
    closes again (a second timer is armed), the first timer's attempt
    fails and the exhaustion is logged.  The second timer is still
    pending: it connects, which resets the counter, and the next close
    arms a new retry, although [start()] was not called after the
    exhaustion. *)
Lemma retries_resume_without_start :
  let up := StartFulfilled "c1" in
  let down := StartRejected (ErrorObject "offline") in
  let w :=
    run single_retry None
        [CallStart; HubStartSettles 0 up; HubClosed None;
         CallStart; HubStartSettles 0 up; HubClosed None;
         TimerFires 0; HubStartSettles 0 down] initial in
  let after := [TimerFires 0; HubStartSettles 0 up; HubClosed None] in
  head (trace w) = Some (Logged LogError "Max reconnection attempts (1) reached")
  ∧ maxRetryAttempts single_retry ≤ reconnectAttempts w
  ∧ Forall (λ ev, ev ≠ CallStart) after
  ∧ ∃ new, trace (run single_retry None after w) = new ++ trace w
           ∧ HubStart ∈ new
           ∧ SetTimeout 1000 ∈ new.
Proof.
  intros up down w after.
  split; [by vm_compute |]. split; [by vm_compute |].
  split; [repeat constructor; discriminate |].
  exists [SetTimeout 1000;
          Logged LogLog "Scheduling reconnection attempt 1 in 1000ms";
          Logged LogLog "SignalR connection closed";
          Logged LogLog "SignalR connection started successfully";
          HubStart].
  split; [by vm_compute |]. split; [| by left].
  do 4 right. by left.
Qed.

(** C3, amended. Every retry that [scheduleReconnect] arms counts
    exactly once: the call either arms nothing and leaves the counter as
    it is, or arms one timer and adds one to the counter.  Once the
    counter has reached [maxRetryAttempts] (the test is [>=], so it
    never exceeds it), [scheduleReconnect] and the close handler only
    log and return normally.  If at that point no retry timer and no
    connection attempt is pending, then no reconnect attempt is
    scheduled or performed, and the budget stays used up, for as long
    as [start()] is not called and the transport does not report that
    it has reconnected. *)
Theorem exhausted_budget_stays_quiet config ctl (w : World)
    (evs : list Event) :
  maxRetryAttempts config ≤ reconnectAttempts w →
  timers w = [] →
  starting w = [] →
  Forall (λ ev, resumes_retries ev = false) evs →
    (∀ w0, ∃ w1,
       scheduleReconnect config w0 = (Returned (), w1)
       ∧ ((timers w1 = timers w0
           ∧ reconnectAttempts w1 = reconnectAttempts w0)
          ∨ (timers w1
             = timers w0 ++ [retry_delay config (reconnectAttempts w0 + 1)]
             ∧ reconnectAttempts w1 = reconnectAttempts w0 + 1)))
  ∧ scheduleReconnect config w
    = (Returned (), said [Logged LogError (exhausted_message config)] w)
  ∧ (∀ err, ∃ log, on_close config err w = (Returned (), said log w)
                   ∧ Forall only_logged log)
  ∧ (let w' := run config ctl evs w in
     maxRetryAttempts config ≤ reconnectAttempts w'
     ∧ ∃ new, trace w' = new ++ trace w
              ∧ Forall (λ e, reconnect_action e = false) new).
Proof.
  intros Hmax Hts Hst Hevs. split; [| split; [| split]].
  - intros w0. eexists. split; [apply scheduleReconnect_cases |].
    destruct (_ || _); [left | right]; by destruct w0.
  - rewrite scheduleReconnect_cases.
    destruct (Z.geb_spec (reconnectAttempts w) (maxRetryAttempts config));
      [| lia].
    by rewrite orb_true_r.
  - intros err. by apply on_close_exhausted.
  - destruct (run_exhausted config ctl evs w Hevs Hmax Hts Hst)
      as [(Hmax' & _) Hgrows].
    split; [done | by apply grows_app].
Qed.

Lemma exhausted_budget_stays_quiet_witness :
  let w :=
    run single_retry None
        [CallStart; HubStartSettles 0 (StartFulfilled "c1"); HubClosed None;
         TimerFires 0;
         HubStartSettles 0 (StartRejected (ErrorObject "offline"))] initial in
  let evs :=
    [HubClosed (Some (ErrorObject "gone")); TimerFires 0;
     PeerInvokeTool "open-settings" JsNull; CallStop; HubStopSettles 0 None;
     HubClosed None] in
  reconnectAttempts w = 1
  ∧ scheduleReconnect single_retry w
    = (Returned (),
       said [Logged LogError "Max reconnection attempts (1) reached"] w)
  ∧ ∃ new, trace (run single_retry None evs w) = new ++ trace w
           ∧ Forall (λ e, reconnect_action e = false) new.
Proof.
  intros w evs. split; [by vm_compute |].
  assert (Hmax : maxRetryAttempts single_retry ≤ reconnectAttempts w)
    by (by vm_compute).
  assert (Hts : timers w = []) by (by vm_compute).
  assert (Hst : starting w = []) by (by vm_compute).
  assert (Hevs : Forall (λ ev, resumes_retries ev = false) evs)
    by (repeat constructor).
  destruct (exhausted_budget_stays_quiet single_retry None w evs
              Hmax Hts Hst Hevs)
    as (_ & Hschedule & _ & _ & Hquiet).
  split; [exact Hschedule | exact Hquiet].
Defined.

(** * Further properties *)

(** ** The retry policy of the transport *)

(** X1. The retry policy handed to the transport waits the capped
    exponential delay plus a jitter of at most one second, in the
    arithmetic of doubles: with the random draw in [[0, 1)], the delay
    lies between [min(baseRetryDelayMs * 2^previousRetryCount, 30000)]
    and that value plus 1000, both included, since the rounding of the
    sum can reach the upper end.  With the same draw a later retry never
    waits less than an earlier one, and from the sixteenth retry on,
    whatever the base delay, the policy waits between 30 and 31
    seconds. *)
Theorem nextRetryDelayInMilliseconds_saturates double config earlier later
    random :
  rounds_like_double double →
  1 ≤ baseRetryDelayMs config →
  0 ≤ earlier ≤ later →
  (0 <= random)%Q → (random < 1)%Q →
    (inject_Z (Z.min (baseRetryDelayMs config * 2 ^ later) 30000)
     <= nextRetryDelayInMilliseconds double config later random)%Q
  ∧ (nextRetryDelayInMilliseconds double config later random
     <= inject_Z (Z.min (baseRetryDelayMs config * 2 ^ later) 30000) + 1000)%Q
  ∧ (nextRetryDelayInMilliseconds double config earlier random
     <= nextRetryDelayInMilliseconds double config later random)%Q
  ∧ (15 ≤ later →
     (30000 <= nextRetryDelayInMilliseconds double config later random)%Q
     ∧ (nextRetryDelayInMilliseconds double config later random <= 31000)%Q).
Proof.
  intros Hdouble Hbase Horder Hlo Hhi.
  destruct (nextRetryDelayInMilliseconds_bounds double config later random
              Hdouble Hbase ltac:(lia) Hlo Hhi) as [Hlower Hupper].
  split; [exact Hlower |]. split; [exact Hupper |].
  assert (Hpow : 2 ^ earlier ≤ 2 ^ later) by (apply Z.pow_le_mono_r; lia).
  split.
  - unfold nextRetryDelayInMilliseconds.
    assert (Hmin : Z.min (baseRetryDelayMs config * 2 ^ earlier) 30000
                   ≤ Z.min (baseRetryDelayMs config * 2 ^ later) 30000) by nia.
    destruct Hdouble as [Hmono _]. apply Hmono.
    apply Qplus_le_l. by rewrite <- Zle_Qle.
  - intros Hlate.
    assert (H15 : 2 ^ 15 ≤ 2 ^ later) by (apply Z.pow_le_mono_r; lia).
    assert (Hcap : Z.min (baseRetryDelayMs config * 2 ^ later) 30000 = 30000).
    { apply Z.min_r. change (2 ^ 15) with 32768 in H15. nia. }
    rewrite Hcap in Hlower, Hupper.
    change (inject_Z 30000) with (30000 # 1)%Q in Hlower, Hupper.
    split; lra.
Qed.

(** Rounding to a grid keeps the order and the integers. *)
Lemma to_grid_rounds_like_double : rounds_like_double to_grid.
Proof.
  split.
  - intros x y Hxy. unfold to_grid, Qle. cbn [Qnum Qden].
    apply Z.mul_le_mono_nonneg_r; [lia |].
    apply Qfloor_resp_le.
    assert (0 <= inject_Z (2 ^ 38))%Q by (vm_compute; discriminate).
    nra.
  - intros n _. unfold to_grid, Qeq. cbn [Qnum Qden inject_Z].
    assert (Hfloor : Qfloor (inject_Z n * inject_Z (2 ^ 38) + (1 # 2))%Q
                     = n * 2 ^ 38).
    { unfold Qfloor, Qplus, Qmult, inject_Z. cbn [Qnum Qden].
      change (Z.pos (1 * 1 * 2)) with 2. change (Z.pos (1 * 1)) with 1.
      replace (n * 2 ^ 38 * 2 + 1 * 1) with (1 + (n * 2 ^ 38) * 2) by lia.
      by rewrite Z.div_add by lia. }
    rewrite Hfloor. lia.
Qed.

Lemma nextRetryDelayInMilliseconds_saturates_witness :
  (inject_Z 30000
   <= nextRetryDelayInMilliseconds to_grid standard 15 largest_draw)%Q
  ∧ (nextRetryDelayInMilliseconds to_grid standard 3 largest_draw
     <= nextRetryDelayInMilliseconds to_grid standard 15 largest_draw)%Q
  ∧ (nextRetryDelayInMilliseconds to_grid standard 15 largest_draw
     <= 31000)%Q
  ∧ (nextRetryDelayInMilliseconds to_grid standard 15 largest_draw
     == 31000)%Q.
Proof.
  assert (Hbase : 1 ≤ baseRetryDelayMs standard) by (by vm_compute).
  assert (Horder : 0 ≤ 3 ≤ 15) by lia.
  assert (Hlo : (0 <= largest_draw)%Q) by (by vm_compute).
  assert (Hhi : (largest_draw < 1)%Q) by (by vm_compute).
  destruct (nextRetryDelayInMilliseconds_saturates to_grid standard 3 15
              largest_draw to_grid_rounds_like_double Hbase Horder Hlo Hhi)
    as (Hlower & _ & Hmono & Hcap).
  split; [exact Hlower |]. split; [exact Hmono |].
  split; [apply Hcap; lia | by vm_compute].
Defined.

(** ** The retry budget along a run *)

Lemma router_effect_armed_within_budget config log :
  Forall router_effect log → Forall (armed_within_budget config) log.
Proof. intros Hlog. eapply Forall_impl; [exact Hlog |]. by intros []. Qed.

(** A step arms timers only for attempts within the budget. *)
Lemma step_armed_within_budget config ctl ev w :
  counter_in_budget config w →
  grows (armed_within_budget config) (trace w) (trace (step config ctl ev w)).
Proof.
  unfold counter_in_budget. intros Hinv.
  destruct ev as [| | | i r | i r | err | err | id | i | toolName args];
    destruct w as [c n manual ts st sp tr]; simpl in Hinv.
  10: { destruct (step_InvokeTool config ctl toolName args
                    {| connection := c; reconnectAttempts := n;
                       isManuallyDisconnected := manual; timers := ts;
                       starting := st; stopping := sp; trace := tr |})
          as (log & _ & -> & Hlog & _). simpl.
        constructor; [by destruct (handled ctl toolName args) |].
        apply grows_app. exists log. split; [done |].
        by apply router_effect_armed_within_budget. }
  all: unfold_service; crunch.
  all: repeat first
         [ apply grows_same
         | apply grows_more;
           [ first [ done
                   | exists (n + 1); split; [lia | reflexivity] ] | ] ].
Qed.

(** X3. Every retry timer armed in a run from the constructor's state
    belongs to one of the attempts [1 .. maxRetryAttempts] and waits
    [baseRetryDelayMs * 2^(attempt-1)]. *)
Theorem armed_timers_within_budget config ctl evs :
  Forall (armed_within_budget config) (trace (run config ctl evs initial)).
Proof.
  assert (Hinv : counter_in_budget config (run config ctl evs initial)
                 ∧ Forall (armed_within_budget config)
                          (trace (run config ctl evs initial))).
  { induction evs as [| ev evs [Hcount Hall]] using rev_ind.
    - split; [unfold counter_in_budget; simpl; lia | constructor].
    - rewrite run_snoc. split; [by apply step_counter_in_budget |].
      pose proof (step_armed_within_budget config ctl ev _ Hcount) as Hgrows.
      apply grows_app in Hgrows as (new & -> & Hnew).
      by apply Forall_app. }
  apply Hinv.
Qed.

(** With no room for a retry, a step arms no timer. *)
Lemma step_without_budget config ctl ev w :
  maxRetryAttempts config ≤ 0 →
  0 ≤ reconnectAttempts w →
  timers w = [] →
  timers (step config ctl ev w) = []
  ∧ grows arms_no_timer (trace w) (trace (step config ctl ev w)).
Proof.
  intros Hmax Hcount Hts.
  destruct ev as [| | | i r | i r | err | err | id | i | toolName args];
    destruct w as [c n manual ts st sp tr]; simpl in Hcount, Hts; subst ts.
  10: { destruct (step_InvokeTool config ctl toolName args
                    {| connection := c; reconnectAttempts := n;
                       isManuallyDisconnected := manual; timers := [];
                       starting := st; stopping := sp; trace := tr |})
          as (log & _ & -> & Hlog & _). simpl. split; [done |].
        constructor; [by destruct (handled ctl toolName args) |].
        apply grows_app. exists log. split; [done |].
        eapply Forall_impl; [exact Hlog |]. by intros []. }
  all: unfold_service; crunch;
    try (split; [done | repeat constructor]).
  all: lia.
Qed.

(** X4. With [maxRetryAttempts] zero (or negative) the service never arms a
    retry timer, whatever happens. *)
Theorem no_budget_no_retry config ctl evs :
  maxRetryAttempts config ≤ 0 →
  timers (run config ctl evs initial) = []
  ∧ Forall arms_no_timer (trace (run config ctl evs initial)).
Proof.
  intros Hmax.
  assert (Hinv : counter_in_budget config (run config ctl evs initial)
                 ∧ timers (run config ctl evs initial) = []
                 ∧ Forall arms_no_timer (trace (run config ctl evs initial))).
  { induction evs as [| ev evs (Hcount & Hts & Hall)] using rev_ind.
    - split; [unfold counter_in_budget; simpl; lia | by split].
    - rewrite run_snoc. split; [by apply step_counter_in_budget |].
      destruct (step_without_budget config ctl ev _ Hmax (proj1 Hcount) Hts)
        as [Hts' Hgrows].
      split; [done |].
      apply grows_app in Hgrows as (new & -> & Hnew).
      by apply Forall_app. }
  split; apply Hinv.
Qed.

Lemma no_budget_no_retry_witness :
  let evs :=
    [CallStart; HubStartSettles 0 (StartFulfilled "c1"); HubClosed None;
     TimerFires 0; HubClosed (Some (ErrorObject "gone"))] in
  timers (run no_retry None evs initial) = []
  ∧ Forall arms_no_timer (trace (run no_retry None evs initial)).
Proof.
  intros evs.
  assert (Hmax : maxRetryAttempts no_retry ≤ 0) by (by vm_compute).
  exact (no_budget_no_retry no_retry None evs Hmax).
Defined.

Lemma timers_armed_router log old :
  Forall router_effect log → timers_armed (log ++ old) = timers_armed old.
Proof.
  induction 1 as [| e log He _ IH]; [done |]. simpl. by destruct e.
Qed.

(** As long as no connection is established, a step arms as many
    timers as it adds to the counter. *)
Lemma step_timers_armed config ctl ev w :
  connects ev = false →
  timers_armed (trace (step config ctl ev w)) - timers_armed (trace w)
  = reconnectAttempts (step config ctl ev w) - reconnectAttempts w.
Proof.
  intros Hev.
  destruct ev as [| | | i r | i r | err | err | id | i | toolName args];
    try done;
    destruct w as [c n manual ts st sp tr].
  9: { destruct (step_InvokeTool config ctl toolName args
                   {| connection := c; reconnectAttempts := n;
                      isManuallyDisconnected := manual; timers := ts;
                      starting := st; stopping := sp; trace := tr |})
         as (log & _ & -> & Hlog & _).
       destruct (handled ctl toolName args); simpl;
         rewrite timers_armed_router by done; lia. }
  all: unfold_service; crunch; lia.
Qed.

Lemma run_timers_armed config ctl evs w :
  Forall (λ ev, connects ev = false) evs →
  timers_armed (trace (run config ctl evs w)) - timers_armed (trace w)
  = reconnectAttempts (run config ctl evs w) - reconnectAttempts w.
Proof.
  intros Hevs. revert w.
  induction Hevs as [| ev evs Hev _ IH]; intros w; simpl; [lia |].
  pose proof (step_timers_armed config ctl ev w Hev).
  pose proof (IH (step config ctl ev w)). lia.
Qed.

(** X5. Between two established connections the service arms at most
    [maxRetryAttempts] retry timers: in a run from the constructor's
    state in which no connection attempt succeeds, the number of timers
    armed is the value of the retry counter, which stays within the
    budget. *)
Theorem retries_in_a_row_bounded config ctl evs :
  Forall (λ ev, connects ev = false) evs →
  let w := run config ctl evs initial in
  timers_armed (trace w) = reconnectAttempts w
  ∧ 0 ≤ timers_armed (trace w) ≤ Z.max 0 (maxRetryAttempts config).
Proof.
  intros Hevs w.
  assert (Hcount : timers_armed (trace w) = reconnectAttempts w).
  { pose proof (run_timers_armed config ctl evs initial Hevs) as Hrun.
    simpl in Hrun. unfold w. lia. }
  split; [done |]. rewrite Hcount.
  apply (run_counter_in_budget config ctl evs).
Qed.

Lemma retries_in_a_row_bounded_witness :
  let failed := StartRejected (ErrorObject "offline") in
  let evs :=
    [HubClosed None; TimerFires 0; HubStartSettles 0 failed;
     TimerFires 0; HubStartSettles 0 failed; HubClosed None; CallStart;
     HubStartSettles 0 failed] in
  let w := run single_retry None evs initial in
  timers_armed (trace w) = reconnectAttempts w
  ∧ 0 ≤ timers_armed (trace w) ≤ Z.max 0 (maxRetryAttempts single_retry).
Proof.
  intros failed evs.
  assert (Hevs : Forall (λ ev, connects ev = false) evs)
    by (repeat constructor).
  exact (retries_in_a_row_bounded single_retry None evs Hevs).
Defined.

(** X2. In every world that a run from the constructor's state reaches, the
    retry counter is at least 0 and at most [maxRetryAttempts] (at most
    0 when that option is negative). *)
Theorem retry_counter_within_budget config ctl evs :
  0 ≤ reconnectAttempts (run config ctl evs initial)
    ≤ Z.max 0 (maxRetryAttempts config).
Proof.
  induction evs as [| ev evs IH] using rev_ind.
  - simpl. lia.
  - rewrite run_snoc.
    by apply (step_counter_in_budget config ctl ev
                (run config ctl evs initial)).
Qed.

(** ** The backoff over successive attempts *)

(** X6. A connection established by [start()] resets the backoff: whatever
    the retry counter and the flag were before, if the channel then
    closes the first retry is armed with the base delay and counted as
    attempt 1. *)
Theorem start_resets_backoff config ctl (w : World) (hub : HubConnection)
    id err :
  connection w = Some hub →
  state hub ≠ Connected →
  state hub ≠ Connecting →
  0 < maxRetryAttempts config →
  let w' :=
    run config ctl
        [CallStart; HubStartSettles (length (starting w)) (StartFulfilled id);
         HubClosed err] w in
  reconnectAttempts w' = 1
  ∧ timers w' = timers w ++ [baseRetryDelayMs config]
  ∧ starting w' = starting w
  ∧ isManuallyDisconnected w' = false.
Proof.
  intros Hconnection Hconnected Hconnecting Hmax.
  destruct w as [c n manual ts st sp tr]; simpl in Hconnection; subst c.
  destruct hub as [s id0]; simpl in *.
  assert (Hlookup : (st ++ [ByCaller]) !! length st = Some ByCaller)
    by apply list_lookup_middle, eq_refl.
  assert (Hdelete : delete (length st) (st ++ [ByCaller]) = st).
  { rewrite delete_middle. apply app_nil_r. }
  destruct s; try done; destruct err; simpl;
    unfold_service; simpl; rewrite ?Hlookup; simpl; rewrite ?Hdelete;
    destruct (Z.geb_spec 0 (maxRetryAttempts config)); try lia; simpl;
    by rewrite Z.mul_1_r.
Qed.

Lemma start_resets_backoff_witness :
  let w :=
    run standard None
        [CallStart; HubStartSettles 0 (StartFulfilled "c1"); HubClosed None;
         TimerFires 0;
         HubStartSettles 0 (StartRejected (ErrorObject "offline"));
         TimerFires 0;
         HubStartSettles 0 (StartRejected (ErrorObject "offline"))]
        initial in
  let w' :=
    run standard None
        [CallStart; HubStartSettles 0 (StartFulfilled "c2"); HubClosed None]
        w in
  reconnectAttempts w = 3
  ∧ timers w = [4000]
  ∧ reconnectAttempts w' = 1
  ∧ timers w' = [4000; 1000].
Proof.
  intros w w'.
  assert (Hcount : reconnectAttempts w = 3) by (by vm_compute).
  assert (Htimers : timers w = [4000]) by (by vm_compute).
  assert (Hconnection :
            connection w
            = Some {| state := Disconnected; connectionId := None |})
    by (by vm_compute).
  assert (Hstarting : length (starting w) = 0%nat) by (by vm_compute).
  assert (Hmax : 0 < maxRetryAttempts standard) by (by vm_compute).
  destruct (start_resets_backoff standard None w _ "c2" None Hconnection
              ltac:(discriminate) ltac:(discriminate) Hmax)
    as (Hcount' & Htimers' & _).
  rewrite Hstarting, Htimers in *.
  split; [exact Hcount |]. split; [reflexivity |].
  split; [exact Hcount' | exact Htimers'].
Defined.

(** X7. A reconnect reported by the transport resets the backoff too:
    if the channel then closes and the flag is not set, the first retry
    is armed with the base delay and counted as attempt 1, whatever the
    retry counter was before. *)
Theorem reconnected_resets_backoff config ctl (w : World) id err :
  isManuallyDisconnected w = false →
  0 < maxRetryAttempts config →
  let w' := run config ctl [HubReconnected id; HubClosed err] w in
  reconnectAttempts w' = 1
  ∧ timers w' = timers w ++ [baseRetryDelayMs config].
Proof.
  intros Hflag Hmax.
  destruct w as [[hub |] n manual ts st sp tr]; simpl in Hflag; subst manual;
    destruct err; simpl; unfold_service; simpl;
    destruct (Z.geb_spec 0 (maxRetryAttempts config)); try lia; simpl;
    by rewrite Z.mul_1_r.
Qed.

Lemma reconnected_resets_backoff_witness :
  let w :=
    run standard None
        [CallStart; HubStartSettles 0 (StartFulfilled "c1"); HubClosed None;
         TimerFires 0;
         HubStartSettles 0 (StartRejected (ErrorObject "offline"))]
        initial in
  let w' := run standard None [HubReconnected (Some "c2"); HubClosed None] w in
  reconnectAttempts w = 2
  ∧ reconnectAttempts w' = 1
  ∧ timers w' = timers w ++ [1000].
Proof.
  intros w w'.
  assert (Hcount : reconnectAttempts w = 2) by (by vm_compute).
  assert (Hflag : isManuallyDisconnected w = false) by (by vm_compute).
  assert (Hmax : 0 < maxRetryAttempts standard) by (by vm_compute).
  split; [exact Hcount |].
  exact (reconnected_resets_backoff standard None w (Some "c2") None
           Hflag Hmax).
Defined.

(** X8. A retry whose connection attempt fails arms the next one with twice
    the delay of the attempt just counted, as long as the budget is not
    used up. *)
Theorem failed_retry_doubles_delay config ctl (w : World)
    (hub : HubConnection) i delay e :
  isManuallyDisconnected w = false →
  connection w = Some hub →
  state hub ≠ Connected →
  state hub ≠ Connecting →
  timers w !! i = Some delay →
  1 ≤ reconnectAttempts w < maxRetryAttempts config →
  let w' :=
    run config ctl
        [TimerFires i;
         HubStartSettles (length (starting w)) (StartRejected e)] w in
  reconnectAttempts w' = reconnectAttempts w + 1
  ∧ timers w'
    = delete i (timers w)
        ++ [2 * (baseRetryDelayMs config * 2 ^ (reconnectAttempts w - 1))]
  ∧ starting w' = starting w.
Proof.
  intros Hflag Hconnection Hconnected Hconnecting Hi Hcount.
  destruct w as [c n manual ts st sp tr]; simpl in *; subst c manual.
  destruct hub as [s id0]; simpl in *.
  assert (Hlookup : (st ++ [ByTimer]) !! length st = Some ByTimer)
    by apply list_lookup_middle, eq_refl.
  assert (Hdelete : delete (length st) (st ++ [ByTimer]) = st).
  { rewrite delete_middle. apply app_nil_r. }
  assert (Hdouble :
            baseRetryDelayMs config * 2 ^ (n + 1 - 1)
            = 2 * (baseRetryDelayMs config * 2 ^ (n - 1))).
  { replace (n + 1 - 1) with (Z.succ (n - 1)) by lia.
    rewrite Z.pow_succ_r by lia. lia. }
  destruct s; try done; simpl;
    unfold_service; simpl; rewrite Hi; simpl; rewrite ?Hlookup; simpl;
    rewrite ?Hdelete;
    destruct (Z.geb_spec n (maxRetryAttempts config)); try lia; simpl;
    by rewrite Hdouble.
Qed.

Lemma failed_retry_doubles_delay_witness :
  let w :=
    run standard None
        [CallStart; HubStartSettles 0 (StartFulfilled "c1"); HubClosed None;
         TimerFires 0;
         HubStartSettles 0 (StartRejected (ErrorObject "offline"))]
        initial in
  let w' :=
    run standard None
        [TimerFires 0;
         HubStartSettles 0 (StartRejected (ErrorObject "offline"))] w in
  timers w = [2000]
  ∧ reconnectAttempts w' = 3
  ∧ timers w' = [4000].
Proof.
  intros w w'.
  assert (Htimers : timers w = [2000]) by (by vm_compute).
  assert (Hflag : isManuallyDisconnected w = false) by (by vm_compute).
  assert (Hconnection :
            connection w
            = Some {| state := Disconnected; connectionId := None |})
    by (by vm_compute).
  assert (Hi : timers w !! 0%nat = Some 2000) by (by vm_compute).
  assert (Hcount : reconnectAttempts w = 2) by (by vm_compute).
  assert (Hstarting : length (starting w) = 0%nat) by (by vm_compute).
  assert (Hbase : baseRetryDelayMs standard = 1000) by (by vm_compute).
  assert (Hbudget : 1 ≤ reconnectAttempts w < maxRetryAttempts standard)
    by (rewrite Hcount; by vm_compute).
  destruct (failed_retry_doubles_delay standard None w _ 0%nat 2000
              (ErrorObject "offline") Hflag Hconnection
              ltac:(discriminate) ltac:(discriminate) Hi Hbudget)
    as (Hcount' & Htimers' & _).
  rewrite Hstarting, Hcount, Htimers, Hbase in *.
  split; [reflexivity |]. split; [exact Hcount' | exact Htimers'].
Defined.

(** ** Timers, notifications and callers *)

(** X9. A retry timer that runs out while the channel is connected, or
    while a connection attempt is in progress, is spent without a second
    attempt: its callback only logs that [start()] had nothing to do. *)
Theorem stale_timer_is_harmless config ctl (w : World) (hub : HubConnection)
    i delay :
  isManuallyDisconnected w = false →
  connection w = Some hub →
  state hub = Connected ∨ state hub = Connecting →
  timers w !! i = Some delay →
  let text :=
    if HubConnectionState_eqb (state hub) Connected
    then "SignalR connection already established"
    else "SignalR connection attempt already in progress" in
  step config ctl (TimerFires i) w
  = said [Logged LogLog text] (with_timers (delete i (timers w)) w).
Proof.
  intros Hflag Hconnection Hstate Hi.
  destruct w as [c n manual ts st sp tr]; simpl in *; subst c manual.
  unfold step. simpl. rewrite Hi. unfold_service. simpl.
  by destruct Hstate as [-> | ->].
Qed.

Lemma stale_timer_is_harmless_witness :
  let w :=
    run standard None
        [CallStart; HubStartSettles 0 (StartFulfilled "c1"); HubClosed None;
         CallStart; HubStartSettles 0 (StartFulfilled "c2")] initial in
  timers w = [1000]
  ∧ step standard None (TimerFires 0) w
    = said [Logged LogLog "SignalR connection already established"]
           (with_timers [] w).
Proof.
  intros w.
  assert (Htimers : timers w = [1000]) by (by vm_compute).
  assert (Hflag : isManuallyDisconnected w = false) by (by vm_compute).
  assert (Hconnection :
            connection w
            = Some {| state := Connected; connectionId := Some "c2" |})
    by (by vm_compute).
  assert (Hi : timers w !! 0%nat = Some 1000) by (by vm_compute).
  pose proof (stale_timer_is_harmless standard None w _ 0%nat 1000 Hflag
                Hconnection (or_introl eq_refl) Hi) as Hstep.
  rewrite Htimers in Hstep. split; [exact Htimers | exact Hstep].
Defined.

(** X10. Notifications of the transport, timers, and the promises
    awaited by a timer callback or by [dispose] never end in a
    rejection: what goes wrong there is logged. *)
Theorem background_never_rejects config ctl ev w :
  background ev w = true →
  ∃ new, trace (step config ctl ev w) = new ++ trace w
         ∧ Forall no_rejection new.
Proof.
  intros Hev. apply grows_app.
  destruct ev as [| | | i r | i r | err | err | id | i | toolName args];
    try done;
    destruct w as [c n manual ts st sp tr]; simpl in Hev.
  all: unfold_service; crunch.
  all: repeat constructor.
Qed.

Lemma background_never_rejects_witness :
  let w :=
    run standard None
        [CallStart; HubStartSettles 0 (StartFulfilled "c1"); HubClosed None;
         TimerFires 0] initial in
  let ev := HubStartSettles 0 (StartRejected (ErrorObject "offline")) in
  starting w = [ByTimer]
  ∧ ∃ new, trace (step standard None ev w) = new ++ trace w
           ∧ Forall no_rejection new.
Proof.
  intros w ev.
  assert (Hstarting : starting w = [ByTimer]) by (by vm_compute).
  assert (Hev : background ev w = true) by (by vm_compute).
  split; [exact Hstarting |].
  exact (background_never_rejects standard None ev w Hev).
Defined.

(** X11. [stop()] hands the transport's failure to its caller as it is, and
    automatic reconnection stays disabled: the flag was set before the
    transport was asked to stop and is not taken back. *)
Theorem failed_stop_keeps_flag config ctl (w : World) (hub : HubConnection)
    (r : option Thrown) :
  connection w = Some hub →
  let w1 := step config ctl CallStop w in
  let w2 := step config ctl (HubStopSettles (length (stopping w)) r) w1 in
    isManuallyDisconnected w1 = true
  ∧ trace w1 = HubStop :: trace w
  ∧ stopping w1 = stopping w ++ [FromStop]
  ∧ isManuallyDisconnected w2 = true
  ∧ stopping w2 = stopping w
  ∧ trace w2
    = match r with
      | Some e => Rejected e
      | None => Logged LogLog "SignalR connection stopped"
      end :: HubStop :: trace w.
Proof.
  intros Hconnection.
  destruct w as [c n manual ts st sp tr]; simpl in *; subst c.
  assert (Hlookup : (sp ++ [FromStop]) !! length sp = Some FromStop)
    by apply list_lookup_middle, eq_refl.
  assert (Hdelete : delete (length sp) (sp ++ [FromStop]) = sp).
  { rewrite delete_middle. apply app_nil_r. }
  destruct hub as [[] id0], r; simpl; unfold_service; simpl;
    rewrite ?Hlookup; simpl; rewrite ?Hdelete; done.
Qed.

Lemma failed_stop_keeps_flag_witness :
  let w :=
    run standard None
        [CallStart; HubStartSettles 0 (StartFulfilled "c1")] initial in
  let w2 :=
    run standard None
        [CallStop; HubStopSettles 0 (Some (ErrorObject "socket error"))] w in
  isManuallyDisconnected w2 = true
  ∧ trace w2 = Rejected (ErrorObject "socket error") :: HubStop :: trace w.
Proof.
  intros w w2.
  assert (Hconnection :
            connection w
            = Some {| state := Connected; connectionId := Some "c1" |})
    by (by vm_compute).
  assert (Hstopping : length (stopping w) = 0%nat) by (by vm_compute).
  destruct (failed_stop_keeps_flag standard None w _
              (Some (ErrorObject "socket error")) Hconnection)
    as (_ & _ & _ & Hflag & _ & Htrace).
  rewrite Hstopping in *. split; [exact Hflag | exact Htrace].
Defined.

(** ** Disposal *)

(** Once the connection has been given up, it stays so, the flag stays
    set, and no step arms a timer or asks the transport to connect. *)
Lemma step_disposed config ctl ev w :
  connection w = None →
  isManuallyDisconnected w = true →
  (connection (step config ctl ev w) = None
   ∧ isManuallyDisconnected (step config ctl ev w) = true)
  ∧ grows quiet (trace w) (trace (step config ctl ev w)).
Proof.
  intros Hconnection Hflag.
  destruct ev as [| | | i r | i r | err | err | id | i | toolName args];
    destruct w as [c n manual ts st sp tr]; simpl in Hconnection, Hflag;
    subst c manual.
  10: { destruct (step_InvokeTool config ctl toolName args
                    {| connection := None; reconnectAttempts := n;
                       isManuallyDisconnected := true; timers := ts;
                       starting := st; stopping := sp; trace := tr |})
          as (log & _ & -> & Hlog & _). simpl. split; [done |].
        constructor; [by destruct (handled ctl toolName args) |].
        apply grows_app. exists log. split; [done |].
        eapply Forall_impl; [exact Hlog |]. by intros []. }
  all: unfold_service; crunch.
  all: split; [done | repeat constructor].
Qed.

Lemma run_disposed config ctl evs w :
  connection w = None →
  isManuallyDisconnected w = true →
  (connection (run config ctl evs w) = None
   ∧ isManuallyDisconnected (run config ctl evs w) = true)
  ∧ grows quiet (trace w) (trace (run config ctl evs w)).
Proof.
  revert w. induction evs as [| ev evs IH]; intros w Hconnection Hflag; simpl.
  - split; [done | constructor].
  - destruct (step_disposed config ctl ev w Hconnection Hflag)
      as [[Hconnection' Hflag'] Hgrows].
    destruct (IH _ Hconnection' Hflag') as [Hinv Hgrows'].
    split; [done | by eapply grows_trans].
Qed.

Lemma dispose_gives_up config ctl w :
  connection (step config ctl CallDispose w) = None
  ∧ isManuallyDisconnected (step config ctl CallDispose w) = true.
Proof.
  destruct w as [[hub |] n manual ts st sp tr]; unfold_service; by crunch.
Qed.

(** X12. [dispose()] is final.  Whatever happened before and whatever
    happens afterwards, calls of [start()] included: the connection is
    gone, the getters report no connection and no session id, no retry
    timer is armed and the transport is never asked to connect again;
    a call of [start()] is rejected with the error that the connection
    is not initialized, and changes nothing else. *)
Theorem dispose_is_final config ctl (before after : list Event) :
  let disposed := run config ctl (before ++ [CallDispose]) initial in
  let w := run config ctl after disposed in
    connection w = None
  ∧ isManuallyDisconnected w = true
  ∧ isConnected w = false
  ∧ connectionState w = None
  ∧ getConnectionId w = None
  ∧ (∃ new, trace w = new ++ trace disposed
            ∧ Forall (λ e, reconnect_action e = false) new)
  ∧ step config ctl CallStart w
    = said [Rejected (ErrorObject "SignalR connection not initialized")] w.
Proof.
  intros disposed w.
  destruct (dispose_gives_up config ctl (run config ctl before initial))
    as [Hconnection Hflag].
  rewrite <- run_snoc in Hconnection, Hflag. fold disposed in Hconnection, Hflag.
  destruct (run_disposed config ctl after disposed Hconnection Hflag)
    as [[Hconnection' Hflag'] Hgrows]. fold w in Hconnection', Hflag', Hgrows.
  split; [done |]. split; [done |].
  unfold isConnected, connectionState, getConnectionId. rewrite Hconnection'.
  split; [done |]. split; [done |]. split; [done |].
  split; [by apply grows_app |].
  unfold step, run_until_await, start_begin. unfold_service.
  rewrite Hconnection'. by destruct w.
Qed.

(** X13. After [dispose()], a second [dispose()] and a [stop()] do nothing
    at all: the transport is not asked to stop again and nothing is
    logged. *)
Theorem dispose_twice config ctl w :
  let disposed := step config ctl CallDispose w in
  step config ctl CallDispose disposed = disposed
  ∧ step config ctl CallStop disposed = disposed.
Proof.
  destruct w as [[hub |] n manual ts st sp tr]; unfold_service; by crunch.
Qed.

(** ** Requests along a run *)

Lemma controller_calls_app log old :
  controller_calls (log ++ old) = controller_calls log ++ controller_calls old.
Proof. unfold controller_calls. apply omap_app. Qed.

(** What one event adds to the calls of the controller. *)
Lemma step_requests config ctl ev w :
  controller_calls (trace (step config ctl ev w))
  = requested_batches ctl [ev] ++ controller_calls (trace w).
Proof.
  destruct ev as [| | | i r | i r | err | err | id | i | toolName args];
    destruct w as [c n manual ts st sp tr].
  10: { destruct (step_InvokeTool config ctl toolName args
                    {| connection := c; reconnectAttempts := n;
                       isManuallyDisconnected := manual; timers := ts;
                       starting := st; stopping := sp; trace := tr |})
          as (log & _ & -> & _ & Hcalls).
        assert (Hsettled : ∀ outcome rest,
                  controller_calls (settled outcome :: rest)
                  = controller_calls rest) by (by intros []).
        unfold said, with_trace. cbn [trace].
        change (controller_calls
                  (settled (handled ctl toolName args) :: log ++ tr)
                = requested_batches ctl [PeerInvokeTool toolName args]
                  ++ controller_calls tr).
        rewrite Hsettled, controller_calls_app, Hcalls.
        by destruct ctl. }
  all: unfold_service; crunch; done.
Qed.

(** X14. The controller is called once for each request of the peer, in the
    order of the requests, with the single-item batch of the tool name
    and the sanitised arguments; nothing else calls it, and without a
    controller it is never called. *)
Theorem controller_called_once_per_request config ctl evs :
  controller_calls (trace (run config ctl evs initial))
  = rev (requested_batches ctl evs)
  ∧ Forall (λ batch, ∃ toolName params,
              batch = [{| toolId := toolName; params := params |}]
              ∧ is_mapping params = true)
           (controller_calls (trace (run config ctl evs initial))).
Proof.
  assert (Hcalls : controller_calls (trace (run config ctl evs initial))
                   = rev (requested_batches ctl evs)).
  { induction evs as [| ev evs IH] using rev_ind; [done |].
    rewrite run_snoc.
    rewrite (step_requests config ctl ev (run config ctl evs initial)).
    rewrite IH. unfold requested_batches. rewrite omap_app, rev_app_distr.
    by destruct ev, ctl. }
  split; [done |]. rewrite Hcalls. apply Forall_rev.
  unfold requested_batches. apply Forall_forall. intros batch Hin.
  apply list_elem_of_omap in Hin as (ev & _ & Hev).
  destruct ev, ctl; simplify_eq.
  eexists _, _. split; [reflexivity |].
  unfold sanitized. by destruct toolArguments.
Qed.

(** ** Sanitisation, log levels, transports *)

(** X16. Sanitising twice is sanitising once: the result is always a
    mapping, a second pass returns it unchanged and logs nothing; and
    the first pass warns exactly when the value is neither [null],
    [undefined] nor a mapping. *)
Theorem sanitizeParameters_idempotent params w :
  ∃ value log,
    sanitizeParameters params w = (Returned value, said log w)
    ∧ is_mapping value = true
    ∧ sanitizeParameters value (said log w) = (Returned value, said log w)
    ∧ log = (if is_nullish params || is_mapping params then []
             else [Logged LogWarn
                     "Invalid parameters type, using empty object:"]).
Proof.
  destruct w, params;
    first [ by eexists _, [] | by eexists _, [_] ].
Qed.

(** X17. [mapLogLevel] never selects [Critical], and two levels of the
    enumeration are mapped to the same level of the transport only when
    they are equal or are [ERROR] and [FATAL]; a value outside the
    enumeration is treated as [INFO]. *)
Theorem mapLogLevel_merges_only_error_and_fatal (a b : LogLevel) :
  mapLogLevel (Some a) ≠ SignalRLogLevel.Critical
  ∧ (mapLogLevel (Some a) = mapLogLevel (Some b)
     ↔ a = b ∨ (a = ERROR ∧ b = FATAL) ∨ (a = FATAL ∧ b = ERROR))
  ∧ mapLogLevel None = mapLogLevel (Some INFO).
Proof.
  split; [by destruct a |]. split; [| done].
  split.
  - destruct a, b; simpl; intros H; try discriminate H; auto.
  - intros [-> | [[-> ->] | [-> ->]]]; reflexivity.
Qed.

Lemma js_and_single_bit t k :
  0 ≤ k < 31 →
  flag_value (truthy (js_and t (2 ^ k))) (2 ^ k) = js_and t (2 ^ k).
Proof.
  intros Hk. unfold js_and, flag_value, truthy.
  assert (Hpow : 2 ^ k < 2 ^ 31) by (apply Z.pow_lt_mono_r; lia).
  assert (Hpos : 0 < 2 ^ k) by (apply Z.pow_pos_nonneg; lia).
  assert (Hid : toInt32 (2 ^ k) = 2 ^ k).
  { unfold toInt32. rewrite Z.mod_small; lia. }
  rewrite Hid.
  assert (Hland : Z.land (toInt32 t) (2 ^ k)
                  = if Z.testbit (toInt32 t) k then 2 ^ k else 0).
  { apply Z.bits_inj'. intros i Hi. rewrite Z.land_spec, Z.pow2_bits_eqb by lia.
    destruct (Z.eqb_spec k i) as [-> | Hne].
    - destruct (Z.testbit (toInt32 t) i) eqn:Hbit; simpl.
      + by rewrite Z.pow2_bits_true.
      + by rewrite Z.bits_0.
    - rewrite andb_false_r. destruct (Z.testbit (toInt32 t) k).
      + rewrite Z.pow2_bits_false; [done | lia].
      + by rewrite Z.bits_0. }
  rewrite Hland. destruct (Z.testbit (toInt32 t) k).
  - destruct (Z.eqb_spec (2 ^ k) 0); [lia | done].
  - done.
Qed.

(** X18. The result of [mapTransportType] is a combination of the three
    transports of the library, a number from 0 to 7; and when the flags
    of the enumeration have the values of the library's flags, the
    function keeps the three low bits of the preference and drops the
    rest. *)
Theorem mapTransportType_range TT t :
  0 ≤ mapTransportType TT t ≤ 7
  ∧ (WebSockets TT = 1 → ServerSentEvents TT = 2 → LongPolling TT = 4 →
     mapTransportType TT t = js_and t 7).
Proof.
  split.
  - rewrite mapTransportType_bits.
    by destruct (truthy _), (truthy _), (truthy _).
  - intros Hws Hsse Hlp. rewrite mapTransportType_bits, Hws, Hsse, Hlp.
    pose proof (js_and_single_bit t 0 ltac:(lia)) as H0.
    pose proof (js_and_single_bit t 1 ltac:(lia)) as H1.
    pose proof (js_and_single_bit t 2 ltac:(lia)) as H2.
    change (2 ^ 0) with 1 in H0. change (2 ^ 1) with 2 in H1.
    change (2 ^ 2) with 4 in H2. rewrite H0, H1, H2.
    unfold js_and. change (toInt32 1) with 1. change (toInt32 2) with 2.
    change (toInt32 4) with 4. change (toInt32 7) with 7.
    rewrite <- !Z.land_lor_distr_r. reflexivity.
Qed.

Lemma mapTransportType_range_witness :
  0 ≤ mapTransportType one_bit_each 13 ≤ 7
  ∧ mapTransportType one_bit_each 13 = js_and 13 7.
Proof.
  destruct (mapTransportType_range one_bit_each 13) as [Hrange Hmirror].
  split; [exact Hrange | exact (Hmirror eq_refl eq_refl eq_refl)].
Defined.

(** ** Liveness probe and discovery *)

(** X19. [ping()] fails at once, with the error that the connection is not
    available, exactly when the getter [isConnected] is false, and then
    nothing is sent or logged; otherwise the invocation is sent.  The
    server's response is returned as it is, and a failure of the
    invocation is logged and thrown on unchanged.  No field of the
    service changes. *)
Theorem ping_requires_connection w response e :
  ping_begin w
  = (if isConnected w then Returned Suspended
     else Threw (ErrorObject "SignalR connection not available"), w)
  ∧ ping_resume (InvokeFulfilled response) w = (Returned response, w)
  ∧ ping_resume (InvokeRejected e) w
    = (Threw e, said [Logged LogError "Error sending ping:"] w).
Proof.
  unfold ping_begin, ping_resume, isConnected. unfold_service.
  destruct w as [[[[] id] |] n manual ts st sp tr]; by simpl.
Qed.

(** X20. The ['GetTools'] handler never throws and does nothing but log.  It
    returns the registry's JSON when the registry answers and the JSON
    can be parsed for the log line, and the empty list ["[]"] in every
    other case. *)
Theorem on_GetTools_never_throws getToolsAsJson parsed_length w :
  ∃ answer log,
    on_GetTools getToolsAsJson parsed_length w = (Returned answer, said log w)
    ∧ Forall only_logged log
    ∧ answer = match getToolsAsJson with
               | Returned toolsJson =>
                   match parsed_length toolsJson with
                   | Returned _ => toolsJson
                   | Threw _ => "[]"
                   end
               | Threw _ => "[]"
               end.
Proof.
  unfold on_GetTools, call. unfold_service.
  destruct w, getToolsAsJson as [toolsJson | e]; simpl.
  - destruct (parsed_length toolsJson); simpl;
      eexists _, [_; _]; by repeat split; repeat constructor.
  - eexists _, [_; _]. by repeat split; repeat constructor.
Qed.
